(** * rytrose/skeeball, package io: the GPIO edge-detection poller (io/rpio.go)

    A shallow embedding of the [rPIO] client and of its [rpioPoller]
    goroutine.  The client's methods are programs in a small monad over
    the whole process state ([World]); the poller's [select] loop is a
    step function on its received message, and the two are composed by a
    labelled step relation in which an unbuffered channel send is a
    rendezvous with a goroutine that is blocked in [select]. *)

From stdpp Require Import gmap list strings.

Open Scope string_scope.
Open Scope list_scope.

(** ** Data model *)

(** [rpio.Pin] (a [uint8] in go-rpio) is only ever used as a map key. *)
Abbreviation Pin := N (only parsing).

(** [rpio.Edge]: the four edge-detection modes of go-rpio. *)
Inductive Edge := NoEdge | RiseEdge | FallEdge | AnyEdge.

(** [time.Duration] is an [int64] count of nanoseconds. *)
Abbreviation Duration := Z (only parsing).

(** A Go [error]: [nil], or the message given to [fmt.Errorf]. *)
Abbreviation error := (option string) (only parsing).

(** The messages of the errors the methods return.  The spec calls them
    NotOpen, NotPolling, AlreadyRegistered and NotRegistered;
    [UpdatePollFreq] has a message of its own for its closed-GPIO guard. *)
Definition NotOpen : string := "GPIO is not yet open".
Definition NotPolling : string := "not yet polling GPIO".
Definition AlreadyRegistered : string :=
  "pin is already registered, call RemoveEdgeDetectionRegistration before attempting a new registration".
Definition NotRegistered : string := "pin is not yet registered".
Definition PollFreqNotOpen : string := "polling has not yet started".

Section Rpio.

(** The functions a caller can pass as a callback: they are opaque to
    the client and the poller, which only store them and start them as
    goroutines.  A value of the Go type [func(rpio.Edge)] is one of
    them or [nil] ([None]). *)
Variable Callback : Type.

(** [pinRegistration] *)
Record pinRegistration := mkReg {
  pin : Pin;
  edge : Edge;
  callback : option Callback
}.

(** [rpioPoller].  The four channels are unbuffered and carry no state;
    [ticker] is the period of the [time.Ticker]. *)
Record rpioPoller := mkPoller {
  ticker : Duration;
  p_registeredPins : gmap N pinRegistration
}.

(** [rPIO] *)
Record rPIO := mkRPIO {
  open : bool;
  polling : bool;
  poller : rpioPoller;
  registeredPins : gmap N bool
}.

(** A value travelling on one of the poller's channels
    ([newPin], [removePin], [newPollFreq], [stop]). *)
Inductive Msg :=
| newPin (reg : pinRegistration)
| removePin (p : Pin)
| newPollFreq (d : Duration)
| stop.

(** Where a goroutine running [rpioPoller.poll] stands: blocked in
    [select], or just past a receive, the case body not yet run. *)
Inductive pollState :=
| Selecting
| Received (m : Msg).

(** What the program does to the outside, in order of occurrence. *)
Inductive Effect :=
| rpio_Open
| rpio_Close
| pin_Detect (p : Pin) (e : Edge)
| go_poll
| chan_send (m : Msg)
| go_callback (cb : Callback) (e : Edge).

(** The process: the [RPIOClient] singleton (with the poller it points
    to), the live goroutines running [poll], and the effects so far. *)
Record World := mkWorld {
  client : rPIO;
  goroutines : list pollState;
  log : list Effect
}.

Definition DefaultPollFreq : Duration := 100 * 1000000.

(** [init()] *)
Definition init : World :=
  {| client := {| open := false; polling := false;
                  poller := {| ticker := DefaultPollFreq; p_registeredPins := ∅ |};
                  registeredPins := ∅ |};
     goroutines := [];
     log := [] |}.

(** Field updates. *)
Definition set_open (b : bool) (r : rPIO) : rPIO :=
  {| open := b; polling := polling r; poller := poller r;
     registeredPins := registeredPins r |}.
Definition set_polling (b : bool) (r : rPIO) : rPIO :=
  {| open := open r; polling := b; poller := poller r;
     registeredPins := registeredPins r |}.
Definition set_poller (p : rpioPoller) (r : rPIO) : rPIO :=
  {| open := open r; polling := polling r; poller := p;
     registeredPins := registeredPins r |}.
Definition set_registeredPins (m : gmap N bool) (r : rPIO) : rPIO :=
  {| open := open r; polling := polling r; poller := poller r;
     registeredPins := m |}.
Definition set_client (r : rPIO) (w : World) : World :=
  {| client := r; goroutines := goroutines w; log := log w |}.
Definition set_goroutines (gs : list pollState) (w : World) : World :=
  {| client := client w; goroutines := gs; log := log w |}.
Definition add_log (es : list Effect) (w : World) : World :=
  {| client := client w; goroutines := goroutines w; log := log w ++ es |}.

(** The poller's registry, as the goroutine sees it through [p]. *)
Definition registry (w : World) : gmap N pinRegistration :=
  p_registeredPins (poller (client w)).

(** ** The poller goroutine *)

(** The outcome of one case body of the [select]. *)
Inductive BodyResult :=
| Continue (p : rpioPoller)
| Exit
| Crash (msg : string).

(** The bodies of the four receive cases of [poll].  [Ticker.Reset]
    panics on a non-positive duration. *)
Definition body (m : Msg) (p : rpioPoller) : BodyResult :=
  match m with
  | newPin newRegistration =>
      Continue {| ticker := ticker p;
                  p_registeredPins :=
                    <[pin newRegistration := newRegistration]> (p_registeredPins p) |}
  | removePin registrationToRemove =>
      Continue {| ticker := ticker p;
                  p_registeredPins := delete registrationToRemove (p_registeredPins p) |}
  | newPollFreq d =>
      if (d <=? 0)%Z then Crash "non-positive interval for Ticker.Reset"
      else Continue {| ticker := d; p_registeredPins := p_registeredPins p |}
  | stop => Exit
  end.

(** The ticker case: the registrations whose pin reports an edge, in the
    order [visit] in which [range] happens to walk the map;
    [detected pin] is what [pin.EdgeDetected()] answers on this tick. *)
Definition fired (detected : Pin -> bool) (visit : list (N * pinRegistration))
  : list (N * pinRegistration) :=
  filter (fun kv => detected (fst kv) = true) visit.

(** [go registration.callback(registration.edge)] for each of them: the
    goroutines started.  The [go] statement on a [nil] function starts
    none and ends the process (see [step_tick]). *)
Definition spawns (fs : list (N * pinRegistration)) : list Effect :=
  omap (fun kv => match callback (snd kv) with
                  | Some cb => Some (go_callback cb (edge (snd kv)))
                  | None => None
                  end) fs.

(** Every goroutine that is past its receive runs its case body and
    goes back to [select], or leaves the loop on [stop]; the panic
    message when a body panics. *)
Fixpoint run_bodies (gs : list pollState) (p : rpioPoller)
  : string + (list pollState * rpioPoller) :=
  match gs with
  | [] => inr ([], p)
  | Selecting :: gs' =>
      match run_bodies gs' p with
      | inr (gs'', p') => inr (Selecting :: gs'', p')
      | inl msg => inl msg
      end
  | Received m :: gs' =>
      match body m p with
      | Continue p1 =>
          match run_bodies gs' p1 with
          | inr (gs'', p') => inr (Selecting :: gs'', p')
          | inl msg => inl msg
          end
      | Exit => run_bodies gs' p
      | Crash msg => inl msg
      end
  end.

(** A send on an unbuffered channel is taken by a goroutine blocked in
    [select]; [None] when there is none. *)
Fixpoint deliver (m : Msg) (gs : list pollState) : option (list pollState) :=
  match gs with
  | [] => None
  | Selecting :: gs' => Some (Received m :: gs')
  | g :: gs' =>
      match deliver m gs' with
      | Some gs'' => Some (g :: gs'')
      | None => None
      end
  end.

(** ** The client's methods *)

(** How a call ends: it returns, it panics, or it stays parked on a
    channel send that no goroutine will ever take. *)
Inductive Res (A : Type) :=
| Done (a : A) (w : World)
| Panic (msg : string) (w : World)
| Block (w : World).
Arguments Done {A} a w.
Arguments Panic {A} msg w.
Arguments Block {A} w.

Definition M (A : Type) : Type := World -> Res A.

Definition ret {A} (a : A) : M A := fun w => Done a w.
Definition bind {A B} (c : M A) (k : A -> M B) : M B := fun w =>
  match c w with
  | Done a w' => k a w'
  | Panic msg w' => Panic msg w'
  | Block w' => Block w'
  end.

Notation "x <- c ;; k" := (bind c (fun x => k))
  (at level 100, c at next level, right associativity).
Notation "c ;;; k" := (bind c (fun _ => k))
  (at level 100, right associativity).

(** [r] (the receiver), an assignment to one of its fields, an outside
    call, [panic]. *)
Definition self : M rPIO := fun w => Done (client w) w.
Definition assign (f : rPIO -> rPIO) : M unit := fun w =>
  Done tt (set_client (f (client w)) w).
Definition emit (e : Effect) : M unit := fun w => Done tt (add_log [e] w).
Definition panic {A} (msg : string) : M A := fun w => Panic msg w.

(** [go r.poller.poll()] *)
Definition spawn_poll : M unit := fun w =>
  Done tt (add_log [go_poll] (set_goroutines (goroutines w ++ [Selecting]) w)).

(** [ch <- m]: the sender waits while the goroutines finish the bodies
    they are in (a panic there ends the process); the send is then taken
    by one that is back in [select], and with no goroutine left the
    sender stays parked for good.  With the single goroutine that [Poll]
    keeps in the loop this is the only schedule there is. *)
Definition send (m : Msg) : M unit := fun w =>
  match run_bodies (goroutines w) (poller (client w)) with
  | inl msg => Panic msg w
  | inr (gs, p) =>
      let w1 := set_goroutines gs (set_client (set_poller p (client w)) w) in
      match deliver m gs with
      | Some gs' => Done tt (add_log [chan_send m] (set_goroutines gs' w1))
      | None => Block w1
      end
  end.

(** [Start]; [openErr] is what [rpio.Open()] returns. *)
Definition Start (openErr : error) : M unit :=
  r <- self ;;
  if open r then ret tt
  else
    emit rpio_Open ;;;
    match openErr with
    | Some err => panic ("unable to open GPIO: " ++ err)%string
    | None => assign (set_open true)
    end.

(** [Poll] *)
Definition Poll : M unit :=
  r <- self ;;
  if polling r then ret tt
  else
    spawn_poll ;;;
    assign (set_polling true).

(** [StopPolling] *)
Definition StopPolling : M unit :=
  r <- self ;;
  if negb (polling r) then ret tt
  else
    send stop ;;;
    assign (set_polling false).

(** [Stop]; [closeErr] is what [rpio.Close()] returns. *)
Definition Stop (closeErr : error) : M unit :=
  r <- self ;;
  if negb (open r) then ret tt
  else
    (if polling r then StopPolling else ret tt) ;;;
    emit rpio_Close ;;;
    match closeErr with
    | Some err => panic ("unable to close GPIO: " ++ err)%string
    | None => assign (set_open false)
    end.

(** [RegisterEdgeDetection] *)
Definition RegisterEdgeDetection (pin : Pin) (edge : Edge)
    (callback : option Callback) : M error :=
  r <- self ;;
  if negb (open r) then ret (Some NotOpen)
  else if negb (polling r) then ret (Some NotPolling)
  else
    match registeredPins r !! pin with
    | Some _ => ret (Some AlreadyRegistered)
    | None =>
        assign (fun r => set_registeredPins (<[pin := true]> (registeredPins r)) r) ;;;
        emit (pin_Detect pin edge) ;;;
        send (newPin {| pin := pin; edge := edge; callback := callback |}) ;;;
        ret None
    end.

(** [RemoveEdgeDetectionRegistration] *)
Definition RemoveEdgeDetectionRegistration (pin : Pin) : M error :=
  r <- self ;;
  if negb (open r) then ret (Some NotOpen)
  else if negb (polling r) then ret (Some NotPolling)
  else
    match registeredPins r !! pin with
    | None => ret (Some NotRegistered)
    | Some _ =>
        assign (fun r => set_registeredPins (delete pin (registeredPins r)) r) ;;;
        emit (pin_Detect pin NoEdge) ;;;
        send (removePin pin) ;;;
        ret None
    end.

(** [UpdatePollFreq] *)
Definition UpdatePollFreq (d : Duration) : M error :=
  r <- self ;;
  if negb (open r) then ret (Some PollFreqNotOpen)
  else
    send (newPollFreq d) ;;;
    ret None.

(** ** The process as a transition system *)

(** The calls a caller can make on [RPIOClient]. *)
Inductive Call :=
| call_Start (openErr : error)
| call_Poll
| call_StopPolling
| call_Stop (closeErr : error)
| call_RegisterEdgeDetection (pin : Pin) (edge : Edge) (callback : option Callback)
| call_RemoveEdgeDetectionRegistration (pin : Pin)
| call_UpdatePollFreq (d : Duration).

(** The error a call returns ([nil] for the methods without a result). *)
Definition invoke (c : Call) : M error :=
  match c with
  | call_Start openErr => Start openErr ;;; ret None
  | call_Poll => Poll ;;; ret None
  | call_StopPolling => StopPolling ;;; ret None
  | call_Stop closeErr => Stop closeErr ;;; ret None
  | call_RegisterEdgeDetection pin edge callback =>
      RegisterEdgeDetection pin edge callback
  | call_RemoveEdgeDetectionRegistration pin =>
      RemoveEdgeDetectionRegistration pin
  | call_UpdatePollFreq d => UpdatePollFreq d
  end.

Inductive Label :=
| Invoke (c : Call) (err : error)
| Body
| Tick (detected : Pin -> bool) (visit : list (N * pinRegistration)).

(** One step of the process.  The calls on the client are serialized
    (the maps are not locked); a call is one step, taken at the moment
    its send is accepted.  A goroutine past its receive runs its case
    body; a goroutine in [select] takes the ticker case and walks the
    registry in some order.  A panic ends the process: no step; so does
    a tick that reaches [go] on a [nil] callback, which
    [RegisterEdgeDetection] does not turn away. *)
Inductive step : World -> Label -> World -> Prop :=
| step_invoke w c err w' :
    invoke c w = Done err w' ->
    step w (Invoke c err) w'
| step_continue w l1 m l2 p :
    goroutines w = l1 ++ Received m :: l2 ->
    body m (poller (client w)) = Continue p ->
    step w Body
      (set_goroutines (l1 ++ Selecting :: l2)
         (set_client (set_poller p (client w)) w))
| step_exit w l1 m l2 :
    goroutines w = l1 ++ Received m :: l2 ->
    body m (poller (client w)) = Exit ->
    step w Body (set_goroutines (l1 ++ l2) w)
| step_tick w detected visit :
    Selecting ∈ goroutines w ->
    visit ≡ₚ map_to_list (registry w) ->
    Forall (fun kv => is_Some (callback (snd kv))) (fired detected visit) ->
    step w (Tick detected visit) (add_log (spawns (fired detected visit)) w).

Inductive exec : World -> list Label -> World -> Prop :=
| exec_nil w : exec w [] w
| exec_cons w l w' ls w'' :
    step w l w' -> exec w' ls w'' -> exec w (l :: ls) w''.

Definition reachable (w : World) : Prop := exists ls, exec init ls w.

(** ** Invariants *)

(** A goroutine that has taken [stop] only has [break pollLoop] left. *)
Definition stopping (g : pollState) : bool :=
  match g with
  | Received stop => true
  | _ => false
  end.

Definition live (gs : list pollState) : list pollState :=
  filter (fun g => stopping g = false) gs.

(** The poller once a received message has been applied (a body that
    panics or leaves the loop changes nothing). *)
Definition after_body (m : Msg) (p : rpioPoller) : rpioPoller :=
  match body m p with
  | Continue p' => p'
  | _ => p
  end.

Definition settle (p : rpioPoller) (gs : list pollState) : rpioPoller :=
  foldl (fun p g => match g with Received m => after_body m p | Selecting => p end)
        p gs.

(** The registry with the messages the goroutines hold in hand applied. *)
Definition settled (w : World) : gmap N pinRegistration :=
  p_registeredPins (settle (poller (client w)) (goroutines w)).

(** No goroutine holds a message whose body is still to run. *)
Definition quiescent (w : World) : Prop :=
  Forall (fun g => g = Selecting) (goroutines w).

(** No goroutine is about to panic in the body it has to run. *)
Definition poller_ok (w : World) : Prop :=
  exists r, run_bodies (goroutines w) (poller (client w)) = inr r.

(** The world once a send of [m] has been accepted: the bodies in
    progress are done, one goroutine holds [m] and [k] others sit in
    [select]. *)
Definition accepted (m : Msg) (k : nat) (w : World) : World :=
  {| client := set_poller (settle (poller (client w)) (goroutines w)) (client w);
     goroutines := Received m :: replicate k Selecting;
     log := log w ++ [chan_send m] |}.

(** The world once the goroutines have run the bodies they are in. *)
Definition bodies_run (w : World) : World :=
  match run_bodies (goroutines w) (poller (client w)) with
  | inr (gs, p) => set_goroutines gs (set_client (set_poller p (client w)) w)
  | inl _ => w
  end.

(** The world a call stops in. *)
Definition world_of {A} (r : Res A) : World :=
  match r with
  | Done _ w | Panic _ w | Block w => w
  end.

(** I2: exactly one goroutine runs the loop while [polling], none does
    otherwise. *)
Definition I2 (w : World) : Prop :=
  length (live (goroutines w)) = if polling (client w) then 1 else 0.

(** I1: the client's shadow map and the poller's registry have the same
    pins, up to the message the poller holds in hand, and every
    registration sits under its own pin. *)
Definition I1 (w : World) : Prop :=
  dom (registeredPins (client w)) = dom (settled w)
  /\ map_Forall (fun k reg => pin reg = k) (settled w).

(** ** What the effects tell *)

(** The effects a step adds to the log, read off the method or the loop
    case the step runs. *)
Definition emitted (w : World) (l : Label) : list Effect :=
  match l with
  | Invoke (call_Start _) _ =>
      if open (client w) then [] else [rpio_Open]
  | Invoke call_Poll _ =>
      if polling (client w) then [] else [go_poll]
  | Invoke call_StopPolling _ =>
      if polling (client w) then [chan_send stop] else []
  | Invoke (call_Stop _) _ =>
      if open (client w)
      then (if polling (client w) then [chan_send stop] else []) ++ [rpio_Close]
      else []
  | Invoke (call_RegisterEdgeDetection pin edge callback) None =>
      [pin_Detect pin edge; chan_send (newPin (mkReg pin edge callback))]
  | Invoke (call_RemoveEdgeDetectionRegistration pin) None =>
      [pin_Detect pin NoEdge; chan_send (removePin pin)]
  | Invoke (call_UpdatePollFreq d) None => [chan_send (newPollFreq d)]
  | Invoke _ (Some _) => []
  | Body => []
  | Tick detected visit => spawns (fired detected visit)
  end.

(** The edge mode each pin was last set to by [pin.Detect]. *)
Definition detect_mode (es : list Effect) : gmap N Edge :=
  foldl (fun hw e => match e with
                     | pin_Detect p edge => <[p := edge]> hw
                     | _ => hw
                     end) ∅ es.

(** How often the device was opened and closed, a loop started and a
    loop told to stop. *)
Definition count (f : Effect -> bool) (es : list Effect) : nat :=
  length (filter (fun e => f e = true) es).
Definition opens : list Effect -> nat :=
  count (fun e => match e with rpio_Open => true | _ => false end).
Definition closes : list Effect -> nat :=
  count (fun e => match e with rpio_Close => true | _ => false end).
Definition loops_started : list Effect -> nat :=
  count (fun e => match e with go_poll => true | _ => false end).
Definition loops_stopped : list Effect -> nat :=
  count (fun e => match e with chan_send stop => true | _ => false end).

(** A goroutine holding a frequency the ticker refuses. *)
Definition doomed (g : pollState) : bool :=
  match g with
  | Received (newPollFreq d) => (d <=? 0)%Z
  | _ => false
  end.

End Rpio.

Arguments mkReg {Callback}.
Arguments pin {Callback}.
Arguments edge {Callback}.
Arguments callback {Callback}.
Arguments mkPoller {Callback}.
Arguments ticker {Callback}.
Arguments p_registeredPins {Callback}.
Arguments mkRPIO {Callback}.
Arguments open {Callback}.
Arguments polling {Callback}.
Arguments poller {Callback}.
Arguments registeredPins {Callback}.
Arguments newPin {Callback}.
Arguments removePin {Callback}.
Arguments newPollFreq {Callback}.
Arguments stop {Callback}.
Arguments Selecting {Callback}.
Arguments Received {Callback}.
Arguments rpio_Open {Callback}.
Arguments rpio_Close {Callback}.
Arguments pin_Detect {Callback}.
Arguments go_poll {Callback}.
Arguments chan_send {Callback}.
Arguments go_callback {Callback}.
Arguments mkWorld {Callback}.
Arguments client {Callback}.
Arguments goroutines {Callback}.
Arguments log {Callback}.
Arguments init {Callback}.
Arguments set_open {Callback}.
Arguments set_polling {Callback}.
Arguments set_poller {Callback}.
Arguments set_registeredPins {Callback}.
Arguments set_client {Callback}.
Arguments set_goroutines {Callback}.
Arguments add_log {Callback}.
Arguments registry {Callback}.
Arguments Continue {Callback}.
Arguments Exit {Callback}.
Arguments Crash {Callback}.
Arguments body {Callback}.
Arguments fired {Callback}.
Arguments spawns {Callback}.
Arguments run_bodies {Callback}.
Arguments deliver {Callback}.
Arguments Done {Callback A}.
Arguments Panic {Callback A}.
Arguments Block {Callback A}.
Arguments ret {Callback A}.
Arguments bind {Callback A B}.
Arguments self {Callback}.
Arguments assign {Callback}.
Arguments emit {Callback}.
Arguments panic {Callback A}.
Arguments spawn_poll {Callback}.
Arguments send {Callback}.
Arguments Start {Callback}.
Arguments Poll {Callback}.
Arguments StopPolling {Callback}.
Arguments Stop {Callback}.
Arguments RegisterEdgeDetection {Callback}.
Arguments RemoveEdgeDetectionRegistration {Callback}.
Arguments UpdatePollFreq {Callback}.
Arguments call_Start {Callback}.
Arguments call_Poll {Callback}.
Arguments call_StopPolling {Callback}.
Arguments call_Stop {Callback}.
Arguments call_RegisterEdgeDetection {Callback}.
Arguments call_RemoveEdgeDetectionRegistration {Callback}.
Arguments call_UpdatePollFreq {Callback}.
Arguments invoke {Callback}.
Arguments Invoke {Callback}.
Arguments Body {Callback}.
Arguments Tick {Callback}.
Arguments step {Callback}.
Arguments step_invoke {Callback}.
Arguments step_continue {Callback}.
Arguments step_exit {Callback}.
Arguments step_tick {Callback}.
Arguments exec {Callback}.
Arguments exec_nil {Callback}.
Arguments exec_cons {Callback}.
Arguments reachable {Callback}.
Arguments stopping {Callback}.
Arguments live {Callback}.
Arguments after_body {Callback}.
Arguments settle {Callback}.
Arguments settled {Callback}.
Arguments quiescent {Callback}.
Arguments poller_ok {Callback}.
Arguments accepted {Callback}.
Arguments bodies_run {Callback}.
Arguments emitted {Callback}.
Arguments detect_mode {Callback}.
Arguments count {Callback}.
Arguments opens {Callback}.
Arguments closes {Callback}.
Arguments loops_started {Callback}.
Arguments loops_stopped {Callback}.
Arguments doomed {Callback}.
Arguments world_of {Callback A}.
Arguments I1 {Callback}.
Arguments I2 {Callback}.

(** ** A session, with callbacks known by name *)

Module Session.

Definition reg4 : pinRegistration string := mkReg 4 RiseEdge (Some "cb1").
Definition reg5 : pinRegistration string := mkReg 5 FallEdge (Some "cb2").

(** [init()], then [Start(); Poll()] *)
Definition w_init : World string := init.
Definition w_open : World string := world_of (Start None w_init).
Definition w_polling : World string := world_of (Poll w_open).

(** [RegisterEdgeDetection(4, RiseEdge, cb1)], then
    [RegisterEdgeDetection(5, FallEdge, cb2)], each followed by the
    poller running the body of the message it has taken. *)
Definition w_sent4 : World string :=
  world_of (RegisterEdgeDetection 4 RiseEdge (Some "cb1") w_polling).
Definition w_reg4 : World string := bodies_run w_sent4.
Definition w_sent5 : World string :=
  world_of (RegisterEdgeDetection 5 FallEdge (Some "cb2") w_reg4).
Definition w_both : World string := bodies_run w_sent5.

(** [RemoveEdgeDetectionRegistration(4)], taken and applied; then pin 4
    registered anew. *)
Definition w_unsent4 : World string :=
  world_of (RemoveEdgeDetectionRegistration 4 w_both).
Definition w_unreg4 : World string := bodies_run w_unsent4.
Definition w_resent4 : World string :=
  world_of (RegisterEdgeDetection 4 AnyEdge (Some "cb3") w_unreg4).
Definition w_rereg4 : World string := bodies_run w_resent4.

(** Every pin reports an edge; only pin 4 does. *)
Definition all_edges : N -> bool := fun _ => true.
Definition edge_on_4 : N -> bool := fun pin => (pin =? 4)%N.

(** A tick in world [w] on which the pins answer [detected]. *)
Definition ticked (detected : N -> bool) (w : World string) : World string :=
  add_log (spawns (fired detected (map_to_list (registry w)))) w.

End Session.

(** * Properties *)

Section Theory.

Context {Callback : Type}.
Implicit Types (w : World Callback) (p : rpioPoller Callback)
  (gs : list (pollState Callback)) (m : Msg Callback)
  (reg : pinRegistration Callback) (ls : list (Label Callback)).

(** ** The goroutines *)

Lemma live_app gs1 gs2 : live (gs1 ++ gs2) = live gs1 ++ live gs2.
Proof. apply filter_app. Qed.

Lemma live_cons g gs :
  live (g :: gs) = if stopping g then live gs else g :: live gs.
Proof.
  unfold live. destruct (stopping g) eqn:E.
  - rewrite filter_cons_False; [done | congruence].
  - by rewrite filter_cons_True.
Qed.

Lemma live_replicate n : live (replicate n (@Selecting Callback)) = replicate n Selecting.
Proof. induction n as [|n IH]; [done|]. simpl. by rewrite live_cons, IH. Qed.

Lemma settle_app p gs1 gs2 : settle p (gs1 ++ gs2) = settle (settle p gs1) gs2.
Proof. apply foldl_app. Qed.

Lemma settle_not_live p gs : length (live gs) = 0 -> settle p gs = p.
Proof.
  revert p. induction gs as [|g gs IH]; intros p Hl; [done|].
  rewrite live_cons in Hl.
  destruct g as [|[]]; simpl in Hl; try lia.
  by apply IH.
Qed.

Lemma settle_replicate p n : settle p (replicate n Selecting) = p.
Proof. induction n as [|n IH]; [done|]. exact IH. Qed.

Lemma body_Continue_live m p p' : body m p = Continue p' -> stopping (Received m) = false.
Proof. by destruct m. Qed.

Lemma body_Exit m p : body m p = Exit -> m = stop.
Proof. destruct m; simpl; try done. by case_match. Qed.

Lemma run_bodies_inr gs p gs' p' :
  run_bodies gs p = inr (gs', p') ->
  gs' = replicate (length (live gs)) Selecting /\ p' = settle p gs.
Proof.
  revert p gs' p'. induction gs as [|g gs IH]; intros p gs' p' H; simpl in H.
  - by simplify_eq.
  - rewrite live_cons. destruct g as [|m].
    + destruct (run_bodies gs p) as [|[gs1 p1]] eqn:E; simplify_eq.
      by destruct (IH _ _ _ E) as [-> ->].
    + change (settle p (Received m :: gs)) with (settle (after_body m p) gs).
      unfold after_body.
      destruct (body m p) as [p1| |] eqn:Eb; simplify_eq.
      * destruct (run_bodies gs p1) as [|[gs1 p2]] eqn:E; simplify_eq.
        destruct (IH _ _ _ E) as [-> ->].
        by rewrite (body_Continue_live _ _ _ Eb).
      * destruct (IH _ _ _ H) as [-> ->].
        by rewrite (body_Exit _ _ Eb).
Qed.

Lemma deliver_replicate m n :
  deliver m (replicate n Selecting) =
  match n with 0 => None | S k => Some (Received m :: replicate k Selecting) end.
Proof. by destruct n. Qed.

(** A send that is accepted: the goroutines have finished their bodies,
    and one of them now holds [m]. *)
Lemma send_Done m w u w' :
  send m w = Done u w' ->
  exists k, length (live (goroutines w)) = S k /\ w' = accepted m k w.
Proof.
  unfold send. destruct (run_bodies _ _) as [|[gs p]] eqn:E; [done|].
  destruct (run_bodies_inr _ _ _ _ E) as [-> ->].
  rewrite deliver_replicate. destruct (length (live (goroutines w))) as [|k]; [done|].
  intros [= <- <-]. by exists k.
Qed.

Lemma send_accepted m w k :
  poller_ok w -> length (live (goroutines w)) = S k ->
  send m w = Done tt (accepted m k w).
Proof.
  intros [[gs p] E] Hk. unfold send. rewrite E.
  destruct (run_bodies_inr _ _ _ _ E) as [-> ->].
  by rewrite deliver_replicate, Hk.
Qed.

(** ** What a call that returns has done *)

Ltac run H :=
  unfold Start, Poll, StopPolling, Stop, RegisterEdgeDetection,
    RemoveEdgeDetectionRegistration, UpdatePollFreq,
    bind, ret, self, assign, emit, panic, spawn_poll in H;
  simpl in H.

Lemma Start_Done openErr w u w' :
  Start openErr w = Done u w' ->
  (open (client w) = true /\ w' = w) \/
  (open (client w) = false /\ openErr = None /\
   w' = set_client (set_open true (client w)) (add_log [rpio_Open] w)).
Proof.
  intros H. run H. destruct (open (client w)); simplify_eq; [by left|].
  destruct openErr; simplify_eq. by right.
Qed.

Lemma Poll_Done w u w' :
  Poll w = Done u w' ->
  (polling (client w) = true /\ w' = w) \/
  (polling (client w) = false /\
   w' = set_client (set_polling true (client w))
          (add_log [go_poll] (set_goroutines (goroutines w ++ [Selecting]) w))).
Proof.
  intros H. run H. destruct (polling (client w)); simplify_eq; [by left|by right].
Qed.

Lemma StopPolling_Done w u w' :
  StopPolling w = Done u w' ->
  (polling (client w) = false /\ w' = w) \/
  (polling (client w) = true /\ exists k,
     length (live (goroutines w)) = S k /\
     w' = set_client (set_polling false (client (accepted stop k w))) (accepted stop k w)).
Proof.
  intros H. run H. destruct (polling (client w)); simpl in H; simplify_eq; [|by left].
  destruct (send stop w) as [[] w1| |] eqn:Es; simplify_eq.
  apply send_Done in Es as (k & Hk & ->). right. split; [done|]. by exists k.
Qed.

Lemma Stop_Done closeErr w u w' :
  Stop closeErr w = Done u w' ->
  (open (client w) = false /\ w' = w) \/
  (open (client w) = true /\ closeErr = None /\ exists w1,
     (if polling (client w) then StopPolling w = Done tt w1 else w1 = w) /\
     w' = set_client (set_open false (client w1)) (add_log [rpio_Close] w1)).
Proof.
  intros H. unfold Stop, bind at 1, self in H.
  destruct (open (client w)); simpl in H; [|left; unfold ret in H; by simplify_eq].
  right. unfold bind at 1 in H.
  destruct (polling (client w)).
  - destruct (StopPolling w) as [[] w1| |] eqn:Es; simplify_eq.
    run H. destruct closeErr; simplify_eq. split_and!; [done..|]. by exists w1.
  - run H. destruct closeErr; simplify_eq. split_and!; [done..|]. by exists w.
Qed.

Lemma RegisterEdgeDetection_Done pin edge callback w err w' :
  RegisterEdgeDetection pin edge callback w = Done err w' ->
  (open (client w) = false /\ err = Some NotOpen /\ w' = w) \/
  (open (client w) = true /\ polling (client w) = false /\
   err = Some NotPolling /\ w' = w) \/
  (open (client w) = true /\ polling (client w) = true /\
   is_Some (registeredPins (client w) !! pin) /\
   err = Some AlreadyRegistered /\ w' = w) \/
  (open (client w) = true /\ polling (client w) = true /\
   registeredPins (client w) !! pin = None /\ err = None /\
   exists k, length (live (goroutines w)) = S k /\
     w' = accepted (newPin (mkReg pin edge callback)) k
            (add_log [pin_Detect pin edge]
               (set_client (set_registeredPins (<[pin := true]> (registeredPins (client w)))
                              (client w)) w))).
Proof.
  intros H. unfold RegisterEdgeDetection, bind at 1, self in H.
  destruct (open (client w)); simpl in H; [|left; unfold ret in H; by simplify_eq].
  destruct (polling (client w)); simpl in H;
    [|right; left; unfold ret in H; by simplify_eq].
  destruct (registeredPins (client w) !! pin) eqn:El;
    [right; right; left; unfold ret in H; by simplify_eq|].
  right; right; right. unfold bind, assign, emit, ret in H.
  match type of H with context [send ?m ?w0] =>
    destruct (send m w0) as [[] w1| |] eqn:Es; simplify_eq end.
  apply send_Done in Es as (k & Hk & ->). split_and!; [done..|]. by exists k.
Qed.

Lemma RemoveEdgeDetectionRegistration_Done pin w err w' :
  RemoveEdgeDetectionRegistration pin w = Done err w' ->
  (open (client w) = false /\ err = Some NotOpen /\ w' = w) \/
  (open (client w) = true /\ polling (client w) = false /\
   err = Some NotPolling /\ w' = w) \/
  (open (client w) = true /\ polling (client w) = true /\
   registeredPins (client w) !! pin = None /\
   err = Some NotRegistered /\ w' = w) \/
  (open (client w) = true /\ polling (client w) = true /\
   is_Some (registeredPins (client w) !! pin) /\ err = None /\
   exists k, length (live (goroutines w)) = S k /\
     w' = accepted (removePin pin) k
            (add_log [pin_Detect pin NoEdge]
               (set_client (set_registeredPins (delete pin (registeredPins (client w)))
                              (client w)) w))).
Proof.
  intros H. unfold RemoveEdgeDetectionRegistration, bind at 1, self in H.
  destruct (open (client w)); simpl in H; [|left; unfold ret in H; by simplify_eq].
  destruct (polling (client w)); simpl in H;
    [|right; left; unfold ret in H; by simplify_eq].
  destruct (registeredPins (client w) !! pin) eqn:El;
    [|right; right; left; unfold ret in H; by simplify_eq].
  right; right; right. unfold bind, assign, emit, ret in H.
  match type of H with context [send ?m ?w0] =>
    destruct (send m w0) as [[] w1| |] eqn:Es; simplify_eq end.
  apply send_Done in Es as (k & Hk & ->). split_and!; [done..|]. by exists k.
Qed.

Lemma UpdatePollFreq_Done d w err w' :
  UpdatePollFreq d w = Done err w' ->
  (open (client w) = false /\ err = Some PollFreqNotOpen /\ w' = w) \/
  (open (client w) = true /\ err = None /\
   exists k, length (live (goroutines w)) = S k /\ w' = accepted (newPollFreq d) k w).
Proof.
  intros H. unfold UpdatePollFreq, bind at 1, self in H.
  destruct (open (client w)); simpl in H; [|left; unfold ret in H; by simplify_eq].
  right. unfold bind, ret in H.
  destruct (send (newPollFreq d) w) as [[] w1| |] eqn:Es; simplify_eq.
  apply send_Done in Es as (k & Hk & ->). split_and!; [done..|]. by exists k.
Qed.

(** ** The registry behind the messages in hand *)

(** What a message does to a registry once its body has run. *)
Lemma after_body_registry m p :
  p_registeredPins (after_body m p) =
  match m with
  | newPin reg => <[pin reg := reg]> (p_registeredPins p)
  | removePin pin => delete pin (p_registeredPins p)
  | _ => p_registeredPins p
  end.
Proof. unfold after_body. destruct m as [| |d|]; simpl; try done. by destruct (d <=? 0)%Z. Qed.

Lemma settled_accepted m k w :
  settled (accepted m k w) =
  p_registeredPins (after_body m (settle (poller (client w)) (goroutines w))).
Proof.
  unfold settled, accepted; simpl.
  change (settle ?p (Received m :: ?l)) with (settle (after_body m p) l).
  by rewrite settle_replicate.
Qed.

Lemma live_accepted m k w :
  length (live (goroutines (accepted m k w))) =
  if stopping (Received m) then k else S k.
Proof.
  unfold accepted; simpl goroutines. rewrite live_cons, live_replicate.
  destruct (stopping _); simpl; by rewrite length_replicate.
Qed.

Lemma settle_quiescent p gs : Forall (fun g => g = Selecting) gs -> settle p gs = p.
Proof.
  induction 1 as [|g gs -> _ IH]; [done|]. exact IH.
Qed.

(** With a single goroutine in the loop, the one that is in [select]
    sees the registry with nothing left to apply. *)
Lemma settled_Selecting w :
  I2 w -> Selecting ∈ goroutines w -> settled w = registry w.
Proof.
  unfold I2, settled, registry. intros H2 Hin.
  apply list_elem_of_split in Hin as (l1 & l2 & Hgs). rewrite Hgs in *.
  rewrite live_app, live_cons, length_app in H2. simpl in H2.
  assert (length (live l1) = 0 /\ length (live l2) = 0) as [H1 H3]
    by (destruct (polling (client w)); lia).
  rewrite settle_app. change (settle ?p (Selecting :: l2)) with (settle p l2).
  by rewrite !settle_not_live.
Qed.

(** ** One step *)

Lemma step_registeredPins w l w' :
  step w l w' ->
  registeredPins (client w') =
  match l with
  | Invoke (call_RegisterEdgeDetection pin _ _) None =>
      <[pin := true]> (registeredPins (client w))
  | Invoke (call_RemoveEdgeDetectionRegistration pin) None =>
      delete pin (registeredPins (client w))
  | _ => registeredPins (client w)
  end.
Proof.
  destruct 1 as [w c err w' H| | |]; try done.
  destruct c; unfold invoke in H; simpl in H.
  - unfold bind, ret in H. destruct (Start _ w) as [[] w1| |] eqn:E; simplify_eq.
    by apply Start_Done in E as [[_ ->]|(_ & _ & ->)].
  - unfold bind, ret in H. destruct (Poll w) as [[] w1| |] eqn:E; simplify_eq.
    by apply Poll_Done in E as [[_ ->]|(_ & ->)].
  - unfold bind, ret in H. destruct (StopPolling w) as [[] w1| |] eqn:E; simplify_eq.
    by apply StopPolling_Done in E as [[_ ->]|(_ & k & _ & ->)].
  - unfold bind, ret in H. destruct (Stop _ w) as [[] w1| |] eqn:E; simplify_eq.
    apply Stop_Done in E as [[_ ->]|(_ & _ & w1 & Hw1 & ->)]; [done|]. simpl.
    destruct (polling (client w)); [|by subst].
    by apply StopPolling_Done in Hw1 as [[_ ->]|(_ & k & _ & ->)].
  - apply RegisterEdgeDetection_Done in H
      as [(_ & -> & ->)|[(_ & _ & -> & ->)|[(_ & _ & _ & -> & ->)|(_ & _ & _ & -> & k & _ & ->)]]];
      done.
  - apply RemoveEdgeDetectionRegistration_Done in H
      as [(_ & -> & ->)|[(_ & _ & -> & ->)|[(_ & _ & _ & -> & ->)|(_ & _ & _ & -> & k & _ & ->)]]];
      done.
  - by apply UpdatePollFreq_Done in H as [(_ & -> & ->)|(_ & -> & k & _ & ->)].
Qed.

Lemma StopPolling_settled w u w' :
  StopPolling w = Done u w' -> settled w' = settled w.
Proof.
  intros [[_ ->]|(_ & k & _ & ->)]%StopPolling_Done; [done|].
  unfold settled, accepted.
  cbn [goroutines client poller set_client set_polling set_poller].
  change (settle ?p (Received stop :: ?l)) with (settle p l).
  by rewrite settle_replicate.
Qed.

Lemma step_settled w l w' :
  I2 w -> step w l w' ->
  settled w' =
  match l with
  | Invoke (call_RegisterEdgeDetection pin edge callback) None =>
      <[pin := mkReg pin edge callback]> (settled w)
  | Invoke (call_RemoveEdgeDetectionRegistration pin) None =>
      delete pin (settled w)
  | _ => settled w
  end.
Proof.
  intros H2. destruct 1 as [w c err w' H|w l1 m l2 p Hgs Hb|w l1 m l2 Hgs Hb|]; try done.
  - destruct c; unfold invoke in H; simpl in H.
    + unfold bind, ret in H. destruct (Start _ w) as [[] w1| |] eqn:E; simplify_eq.
      by apply Start_Done in E as [[_ ->]|(_ & _ & ->)].
    + unfold bind, ret in H. destruct (Poll w) as [[] w1| |] eqn:E; simplify_eq.
      apply Poll_Done in E as [[_ ->]|(_ & ->)]; [done|].
      unfold settled; simpl. by rewrite settle_app.
    + unfold bind, ret in H. destruct (StopPolling w) as [[] w1| |] eqn:E; simplify_eq.
      by apply StopPolling_settled in E.
    + unfold bind, ret in H. destruct (Stop _ w) as [[] w1| |] eqn:E; simplify_eq.
      apply Stop_Done in E as [[_ ->]|(_ & _ & w1 & Hw1 & ->)]; [done|].
      change (settled (set_client _ (add_log _ w1))) with (settled w1).
      destruct (polling (client w)); [|by subst].
      by apply StopPolling_settled in Hw1.
    + apply RegisterEdgeDetection_Done in H
        as [(_ & -> & ->)|[(_ & _ & -> & ->)|[(_ & _ & _ & -> & ->)|(_ & _ & _ & -> & k & _ & ->)]]];
        try done.
      by rewrite settled_accepted, after_body_registry.
    + apply RemoveEdgeDetectionRegistration_Done in H
        as [(_ & -> & ->)|[(_ & _ & -> & ->)|[(_ & _ & _ & -> & ->)|(_ & _ & _ & -> & k & _ & ->)]]];
        try done.
      by rewrite settled_accepted, after_body_registry.
    + apply UpdatePollFreq_Done in H as [(_ & -> & ->)|(_ & -> & k & _ & ->)]; [done|].
      by rewrite settled_accepted, after_body_registry.
  - unfold I2 in H2. unfold settled; simpl. rewrite Hgs in *.
    rewrite live_app, live_cons, length_app, (body_Continue_live _ _ _ Hb) in H2.
    simpl in H2.
    assert (length (live l1) = 0 /\ length (live l2) = 0) as [H1 H3]
      by (destruct (polling (client w)); lia).
    rewrite !settle_app.
    change (settle ?q (Selecting :: l2)) with (settle q l2).
    change (settle ?q (Received m :: l2)) with (settle (after_body m q) l2).
    rewrite !settle_not_live by done. unfold after_body. by rewrite Hb.
  - apply body_Exit in Hb as ->. unfold settled; simpl. rewrite Hgs.
    by rewrite !settle_app.
Qed.

Lemma StopPolling_I2 w u w' :
  I2 w -> StopPolling w = Done u w' ->
  length (live (goroutines w')) = 0 /\ polling (client w') = false.
Proof.
  unfold I2. intros H2 [[Hp ->]|(Hp & k & Hk & ->)]%StopPolling_Done.
  - by rewrite Hp in H2.
  - simpl polling. change (goroutines (set_client ?r ?w0)) with (goroutines w0).
    rewrite live_accepted. simpl. rewrite Hp, Hk in H2. split; [lia|done].
Qed.

Lemma step_I2 w l w' : I2 w -> step w l w' -> I2 w'.
Proof.
  intros H2. pose proof (StopPolling_I2 w) as Hsp. unfold I2 in *.
  destruct 1 as [w c err w' H|w l1 m l2 p Hgs Hb|w l1 m l2 Hgs Hb|]; try done.
  - specialize (fun u w1 => Hsp u w1 H2).
    destruct c; unfold invoke in H; simpl in H.
    + unfold bind, ret in H. destruct (Start _ w) as [[] w1| |] eqn:E; simplify_eq.
      by apply Start_Done in E as [[_ ->]|(_ & _ & ->)].
    + unfold bind, ret in H. destruct (Poll w) as [[] w1| |] eqn:E; simplify_eq.
      apply Poll_Done in E as [[_ ->]|(Hp & ->)]; [done|]. simpl.
      rewrite Hp in H2. rewrite live_app, length_app, H2. done.
    + unfold bind, ret in H. destruct (StopPolling w) as [[] w1| |] eqn:E; simplify_eq.
      by destruct (Hsp _ _ eq_refl) as [-> ->].
    + unfold bind, ret in H. destruct (Stop _ w) as [[] w1| |] eqn:E; simplify_eq.
      apply Stop_Done in E as [[_ ->]|(_ & _ & w1 & Hw1 & ->)]; [done|]. simpl.
      destruct (polling (client w)) eqn:Hp; [|subst; by rewrite Hp].
      by destruct (Hsp _ _ Hw1) as [-> ->].
    + apply RegisterEdgeDetection_Done in H
        as [(_ & -> & ->)|[(_ & _ & -> & ->)|[(_ & _ & _ & -> & ->)|(_ & Hp & _ & -> & k & Hk & ->)]]];
        try done.
      rewrite live_accepted. simpl in *. rewrite Hp, Hk in H2. by rewrite Hp.
    + apply RemoveEdgeDetectionRegistration_Done in H
        as [(_ & -> & ->)|[(_ & _ & -> & ->)|[(_ & _ & _ & -> & ->)|(_ & Hp & _ & -> & k & Hk & ->)]]];
        try done.
      rewrite live_accepted. simpl in *. rewrite Hp, Hk in H2. by rewrite Hp.
    + apply UpdatePollFreq_Done in H as [(_ & -> & ->)|(_ & -> & k & Hk & ->)]; [done|].
      rewrite live_accepted. simpl in *. rewrite Hk in H2. by rewrite <- H2.
  - simpl. rewrite Hgs in H2.
    rewrite live_app, live_cons, length_app, (body_Continue_live _ _ _ Hb) in H2.
    by rewrite live_app, live_cons, length_app.
  - apply body_Exit in Hb as ->. simpl. rewrite Hgs in H2.
    rewrite live_app, live_cons, length_app in H2. by rewrite live_app, length_app.
Qed.

Lemma step_I1 w l w' : I2 w -> I1 w -> step w l w' -> I1 w'.
Proof.
  intros H2 [Hd Hk] Hs. unfold I1.
  rewrite (step_registeredPins _ _ _ Hs), (step_settled _ _ _ H2 Hs).
  destruct l as [[| | | |pin e cb|pin|] [err|]| |]; try done.
  - rewrite !dom_insert_L, Hd. split; [done|]. by apply map_Forall_insert_2.
  - rewrite !dom_delete_L, Hd. split; [done|]. by apply map_Forall_delete.
Qed.

Lemma init_I2 : I2 (@init Callback).
Proof. done. Qed.

Lemma init_I1 : I1 (@init Callback).
Proof. unfold I1, settled; simpl. split; [by rewrite !dom_empty_L|apply map_Forall_empty]. Qed.

Lemma exec_I2 w ls w' : I2 w -> exec w ls w' -> I2 w'.
Proof. intros H2 He. induction He; eauto using step_I2. Qed.

Lemma exec_I1 w ls w' : I2 w -> I1 w -> exec w ls w' -> I1 w'.
Proof. intros H2 H1 He. induction He; eauto using step_I1, step_I2. Qed.

Lemma reachable_I2 w : reachable w -> I2 w.
Proof. intros [ls He]. eapply exec_I2; [apply init_I2|done]. Qed.

Lemma reachable_I1 w : reachable w -> I1 w.
Proof. intros [ls He]. eapply exec_I1; [apply init_I2|apply init_I1|done]. Qed.

(** ** Executions *)

Lemma exec_registered w ls w' pin :
  exec w ls w' ->
  Invoke (call_RemoveEdgeDetectionRegistration pin) None ∉ ls ->
  is_Some (registeredPins (client w) !! pin) ->
  is_Some (registeredPins (client w') !! pin).
Proof.
  induction 1 as [|w l w' ls w'' Hs _ IH]; [done|]. intros Hno Hin.
  apply IH; [set_solver|]. rewrite (step_registeredPins _ _ _ Hs).
  destruct l as [[| | | |pin' e cb|pin'|] [err|]| |]; try done.
  - destruct (decide (pin' = pin)) as [->|]; [by rewrite lookup_insert_eq|].
    by rewrite lookup_insert_ne.
  - rewrite lookup_delete_ne; [done|]. intros ->. set_solver.
Qed.

Lemma exec_unregistered w ls w' pin :
  exec w ls w' ->
  (forall edge callback,
     Invoke (call_RegisterEdgeDetection pin edge callback) None ∉ ls) ->
  registeredPins (client w) !! pin = None ->
  registeredPins (client w') !! pin = None.
Proof.
  induction 1 as [|w l w' ls w'' Hs _ IH]; [done|]. intros Hno Hin.
  apply IH; [intros e cb; specialize (Hno e cb); set_solver|].
  rewrite (step_registeredPins _ _ _ Hs).
  destruct l as [[| | | |pin' e cb|pin'|] [err|]| |]; try done.
  - rewrite lookup_insert_ne; [done|]. intros ->. specialize (Hno e cb). set_solver.
  - destruct (decide (pin' = pin)) as [->|]; [by rewrite lookup_delete_eq|].
    by rewrite lookup_delete_ne.
Qed.

(** ** The client's registration methods *)

Lemma RegisterEdgeDetection_dup w pin edge callback :
  open (client w) = true -> polling (client w) = true ->
  is_Some (registeredPins (client w) !! pin) ->
  RegisterEdgeDetection pin edge callback w = Done (Some AlreadyRegistered) w.
Proof.
  intros Ho Hp [b Hb].
  unfold RegisterEdgeDetection, bind, self, ret. by rewrite Ho, Hp, Hb.
Qed.

(** C1.  [RegisterEdgeDetection] checks, in this order, that the GPIO is
    open, that polling has started and that the pin has no registration
    yet, and returns the matching error in a world it has not touched.
    Past the three checks, with the poller goroutine in its loop, it
    records the pin in [registeredPins], programs the edge detection of
    the pin, hands the registration to the poller and returns [nil];
    from then on, as long as no removal of the pin succeeds, a further
    registration of the pin on the open, polling client is answered
    with the already-registered error. *)
Theorem RegisterEdgeDetection_spec w pin edge callback :
  (open (client w) = false ->
   RegisterEdgeDetection pin edge callback w = Done (Some NotOpen) w) /\
  (open (client w) = true -> polling (client w) = false ->
   RegisterEdgeDetection pin edge callback w = Done (Some NotPolling) w) /\
  (open (client w) = true -> polling (client w) = true ->
   is_Some (registeredPins (client w) !! pin) ->
   RegisterEdgeDetection pin edge callback w = Done (Some AlreadyRegistered) w) /\
  (open (client w) = true -> polling (client w) = true ->
   registeredPins (client w) !! pin = None ->
   I2 w -> poller_ok w ->
   exists w',
     RegisterEdgeDetection pin edge callback w = Done None w' /\
     open (client w') = true /\ polling (client w') = true /\
     registeredPins (client w') = <[pin := true]> (registeredPins (client w)) /\
     log w' = log w ++ [pin_Detect pin edge;
                        chan_send (newPin (mkReg pin edge callback))] /\
     goroutines w' = [Received (newPin (mkReg pin edge callback))] /\
     (forall ls w'' edge' callback',
        exec w' ls w'' ->
        Invoke (call_RemoveEdgeDetectionRegistration pin) None ∉ ls ->
        open (client w'') = true -> polling (client w'') = true ->
        RegisterEdgeDetection pin edge' callback' w''
        = Done (Some AlreadyRegistered) w'')).
Proof.
  split_and!.
  - intros Ho. unfold RegisterEdgeDetection, bind, self, ret. by rewrite Ho.
  - intros Ho Hp. unfold RegisterEdgeDetection, bind, self, ret. by rewrite Ho, Hp.
  - apply RegisterEdgeDetection_dup.
  - intros Ho Hp Hl H2 Hok.
    set (w1 := add_log [pin_Detect pin edge]
                 (set_client (set_registeredPins (<[pin := true]> (registeredPins (client w)))
                                (client w)) w)).
    assert (send (newPin (mkReg pin edge callback)) w1
            = Done tt (accepted (newPin (mkReg pin edge callback)) 0 w1)) as Hs.
    { apply send_accepted; [exact Hok|]. unfold I2 in H2. by rewrite Hp in H2. }
    exists (accepted (newPin (mkReg pin edge callback)) 0 w1). split_and!; try done.
    + unfold RegisterEdgeDetection, bind at 1, self. rewrite Ho, Hp, Hl. simpl.
      unfold bind, assign, emit, ret. fold w1. by rewrite Hs.
    + simpl. by rewrite <- app_assoc.
    + intros ls w'' e' cb' He Hno Ho' Hp'. apply RegisterEdgeDetection_dup; [done..|].
      eapply exec_registered; [done..|]. simpl. by rewrite lookup_insert_eq.
Qed.

(** C3.  [RemoveEdgeDetectionRegistration] checks, in this order, that
    the GPIO is open, that polling has started and that the pin is
    registered, and returns the matching error in a world it has not
    touched; a pin that no successful registration has recorded since
    [init] is answered with the not-registered error.  Past the three
    checks, with the poller goroutine in its loop, it deletes the pin
    from [registeredPins], clears the edge detection of the pin, hands
    the removal to the poller and returns [nil]. *)
Theorem RemoveEdgeDetectionRegistration_spec w pin :
  (open (client w) = false ->
   RemoveEdgeDetectionRegistration pin w = Done (Some NotOpen) w) /\
  (open (client w) = true -> polling (client w) = false ->
   RemoveEdgeDetectionRegistration pin w = Done (Some NotPolling) w) /\
  (open (client w) = true -> polling (client w) = true ->
   registeredPins (client w) !! pin = None ->
   RemoveEdgeDetectionRegistration pin w = Done (Some NotRegistered) w) /\
  (forall ls,
     exec init ls w ->
     (forall edge callback,
        Invoke (call_RegisterEdgeDetection pin edge callback) None ∉ ls) ->
     open (client w) = true -> polling (client w) = true ->
     RemoveEdgeDetectionRegistration pin w = Done (Some NotRegistered) w) /\
  (open (client w) = true -> polling (client w) = true ->
   is_Some (registeredPins (client w) !! pin) ->
   I2 w -> poller_ok w ->
   exists w',
     RemoveEdgeDetectionRegistration pin w = Done None w' /\
     open (client w') = true /\ polling (client w') = true /\
     registeredPins (client w') = delete pin (registeredPins (client w)) /\
     log w' = log w ++ [pin_Detect pin NoEdge; chan_send (removePin pin)] /\
     goroutines w' = [Received (removePin pin)]).
Proof.
  assert (open (client w) = true -> polling (client w) = true ->
          registeredPins (client w) !! pin = None ->
          RemoveEdgeDetectionRegistration pin w = Done (Some NotRegistered) w) as Hnone.
  { intros Ho Hp Hl.
    unfold RemoveEdgeDetectionRegistration, bind, self, ret. by rewrite Ho, Hp, Hl. }
  split_and!.
  - intros Ho. unfold RemoveEdgeDetectionRegistration, bind, self, ret. by rewrite Ho.
  - intros Ho Hp. unfold RemoveEdgeDetectionRegistration, bind, self, ret.
    by rewrite Ho, Hp.
  - exact Hnone.
  - intros ls He Hno Ho Hp. apply Hnone; [done..|].
    by apply (exec_unregistered _ _ _ _ He Hno).
  - intros Ho Hp [b Hl] H2 Hok.
    set (w1 := add_log [pin_Detect pin NoEdge]
                 (set_client (set_registeredPins (delete pin (registeredPins (client w)))
                                (client w)) w)).
    assert (send (removePin pin) w1 = Done tt (accepted (removePin pin) 0 w1)) as Hs.
    { apply send_accepted; [exact Hok|]. unfold I2 in H2. by rewrite Hp in H2. }
    exists (accepted (removePin pin) 0 w1). split_and!; try done.
    + unfold RemoveEdgeDetectionRegistration, bind at 1, self. rewrite Ho, Hp, Hl. simpl.
      unfold bind, assign, emit, ret. fold w1. by rewrite Hs.
    + simpl. by rewrite <- app_assoc.
Qed.

(** C9.  A registration, a removal or a frequency update that returns
    an error returns it in the world it was called in: no flag and no
    map of the client has changed, nothing was added to the effects (no
    [Detect] call on a pin, no send), and the goroutines are where they
    were. *)
Theorem error_leaves_world_untouched w w' (err : string) :
  (forall pin edge callback,
     RegisterEdgeDetection pin edge callback w = Done (Some err) w' -> w' = w) /\
  (forall pin,
     RemoveEdgeDetectionRegistration pin w = Done (Some err) w' -> w' = w) /\
  (forall d, UpdatePollFreq d w = Done (Some err) w' -> w' = w).
Proof.
  split_and!.
  - intros pin e cb H. apply RegisterEdgeDetection_Done in H.
    by destruct H as [(_ & _ & ->)|[(_ & _ & _ & ->)|[(_ & _ & _ & _ & ->)|(_ & _ & _ & ? & _)]]].
  - intros pin H. apply RemoveEdgeDetectionRegistration_Done in H.
    by destruct H as [(_ & _ & ->)|[(_ & _ & _ & ->)|[(_ & _ & _ & _ & ->)|(_ & _ & _ & ? & _)]]].
  - intros d H. apply UpdatePollFreq_Done in H.
    by destruct H as [(_ & _ & ->)|(_ & ? & _)].
Qed.

(** ** The lifecycle methods *)

(** C4.  Each lifecycle method run twice in a row ends as one run of it
    does: in the same world (the second run changes no flag and adds no
    effect) when the first run returns, and where the first run stopped
    when it panicked or stayed parked.  This holds in every world and
    for every answer of [rpio.Open] and [rpio.Close]. *)
Theorem lifecycle_idempotent w (openErr openErr' closeErr closeErr' : error) :
  bind (Start openErr) (fun _ => Start openErr') w = Start openErr w /\
  bind Poll (fun _ => Poll) w = Poll w /\
  bind StopPolling (fun _ => StopPolling) w = StopPolling w /\
  bind (Stop closeErr) (fun _ => Stop closeErr') w = Stop closeErr w.
Proof.
  split_and!.
  - destruct (Start openErr w) as [[] w1| |] eqn:E; unfold bind; rewrite E; [|done..].
    apply Start_Done in E as [[Ho ->]|(_ & _ & ->)];
      unfold Start, bind, self, ret; simpl; by rewrite ?Ho.
  - destruct (Poll w) as [[] w1| |] eqn:E; unfold bind; rewrite E; [|done..].
    apply Poll_Done in E as [[Hp ->]|(_ & ->)];
      unfold Poll, bind, self, ret; simpl; by rewrite ?Hp.
  - destruct (StopPolling w) as [[] w1| |] eqn:E; unfold bind; rewrite E; [|done..].
    apply StopPolling_Done in E as [[Hp ->]|(_ & k & _ & ->)];
      unfold StopPolling, bind, self, ret; simpl; by rewrite ?Hp.
  - destruct (Stop closeErr w) as [[] w1| |] eqn:E; unfold bind; rewrite E; [|done..].
    apply Stop_Done in E as [[Ho ->]|(_ & _ & w2 & _ & ->)];
      unfold Stop, bind, self, ret; simpl; by rewrite ?Ho.
Qed.

(** ** The poller's loop *)

(** C8.  The body of the removal case deletes the entry of the pin and
    nothing else; when the pin has no entry the poller is left exactly as
    it was, and the loop goes on either way.  The body of the
    registration case puts the registration under its pin, whatever was
    there before, and touches no other entry. *)
Theorem body_registry_spec p (removed : Pin) reg :
  (exists p',
     body (removePin removed) p = Continue p' /\
     ticker p' = ticker p /\
     p_registeredPins p' !! removed = None /\
     (forall pin', pin' <> removed ->
        p_registeredPins p' !! pin' = p_registeredPins p !! pin')) /\
  (p_registeredPins p !! removed = None -> body (removePin removed) p = Continue p) /\
  (exists p',
     body (newPin reg) p = Continue p' /\
     ticker p' = ticker p /\
     p_registeredPins p' !! pin reg = Some reg /\
     (forall pin', pin' <> pin reg ->
        p_registeredPins p' !! pin' = p_registeredPins p !! pin')).
Proof.
  split_and!.
  - eexists. split; [done|]. simpl. split_and!; [done|apply lookup_delete_eq|].
    intros pin' Hne. by apply lookup_delete_ne.
  - intros Hl. destruct p as [t rp]. simpl in *. by rewrite delete_id.
  - eexists. split; [done|]. simpl. split_and!; [done|apply lookup_insert_eq|].
    intros pin' Hne. by apply lookup_insert_ne.
Qed.

Lemma fired_delete (L : Pin) reg detected (rp : gmap N (pinRegistration Callback)) visit :
  rp !! L = Some reg -> detected L = true -> visit ≡ₚ map_to_list rp ->
  fired detected visit ≡ₚ (L, reg) :: fired detected (map_to_list (delete L rp)).
Proof.
  intros Hl Hd Hv. unfold fired. rewrite Hv, <- (map_to_list_delete rp L reg Hl).
  by rewrite filter_cons_True.
Qed.

(** C2.  A tick taken while the registry holds the registration of pin
    [L] with edge [e] and callback [f], and on which [L] reports an
    edge, finds a function [cb] in [f] (a tick does not get past [go] on
    a [nil] callback) and starts [cb] on behalf of [L] exactly once and
    with [e]: [L] is visited once, and the goroutines the tick starts
    are the call [cb(e)] next to what the same tick would start were [L]
    not registered. *)
Theorem tick_invokes_once w w' (L : Pin) e (f : option Callback) detected visit :
  registry w !! L = Some (mkReg L e f) ->
  detected L = true ->
  step w (Tick detected visit) w' ->
  exists cb,
    f = Some cb /\
    filter (fun kv => fst kv = L) (fired detected visit) = [(L, mkReg L e (Some cb))] /\
    log w' = log w ++ spawns (fired detected visit) /\
    spawns (fired detected visit) ≡ₚ
      go_callback cb e :: spawns (fired detected (map_to_list (delete L (registry w)))).
Proof.
  intros Hl Hd Hs. inversion Hs as [| | |w0 d0 v0 Hsel Hv Hfn]; subst.
  pose proof (fired_delete _ _ _ _ _ Hl Hd Hv) as Hf.
  assert (is_Some f) as [cb ->].
  { rewrite Forall_forall in Hfn. apply (Hfn (L, mkReg L e f)).
    rewrite Hf. apply list_elem_of_here. }
  exists cb. split_and!.
  - done.
  - apply Permutation_singleton_r. rewrite Hf, filter_cons_True by done.
    apply Permutation_skip. apply Permutation_nil_r.
    apply elem_of_nil_inv. intros [k r] Hin.
    apply list_elem_of_filter in Hin as [Hk Hin]. simpl in Hk. subst k.
    apply list_elem_of_filter in Hin as [_ Hin].
    apply elem_of_map_to_list in Hin.
    by rewrite lookup_delete_eq in Hin.
  - done.
  - unfold spawns. by rewrite Hf.
Qed.

(** The registration a successful [RegisterEdgeDetection] has sent is
    the one every later tick finds under the pin, until a removal of the
    pin succeeds. *)
Lemma exec_keeps_registration w ls w' (L : Pin) reg :
  I2 w -> is_Some (registeredPins (client w) !! L) -> settled w !! L = Some reg ->
  exec w ls w' ->
  Invoke (call_RemoveEdgeDetectionRegistration L) None ∉ ls ->
  I2 w' /\ settled w' !! L = Some reg.
Proof.
  intros H2 Hin Hst He. revert H2 Hin Hst.
  induction He as [|w l w' ls w'' Hs _ IH]; intros H2 Hin Hst Hno; [done|].
  assert (Invoke (call_RemoveEdgeDetectionRegistration L) None ∉ ls) as Hno'
    by (intros ?; apply Hno; by apply elem_of_cons; right).
  apply IH; [by eapply step_I2| | |done].
  - apply (exec_registered w [l] w'); [by repeat econstructor| |done].
    intros [<-|?%elem_of_nil]%elem_of_cons; [|done]. apply Hno, list_elem_of_here.
  - rewrite (step_settled _ _ _ H2 Hs).
    destruct l as [[| | | |pin' e cb|pin'|] [err|]| |]; try done.
    + destruct (decide (pin' = L)) as [->|]; [|by rewrite lookup_insert_ne].
      inversion Hs as [w0 c0 e0 w0' Hi| | |]; subst. simpl in Hi.
      apply RegisterEdgeDetection_Done in Hi
        as [(_ & ? & _)|[(_ & _ & ? & _)|[(_ & _ & _ & ? & _)|(_ & _ & Hl & _)]]];
        try done.
      rewrite Hl in Hin. by destruct Hin.
    + rewrite lookup_delete_ne; [done|]. intros ->. apply Hno, list_elem_of_here.
Qed.

Lemma registration_reaches_tick w (L : Pin) e cb w1 ls w2 detected visit w3 :
  reachable w ->
  RegisterEdgeDetection L e cb w = Done None w1 ->
  exec w1 ls w2 ->
  Invoke (call_RemoveEdgeDetectionRegistration L) None ∉ ls ->
  step w2 (Tick detected visit) w3 ->
  registry w2 !! L = Some (mkReg L e cb).
Proof.
  intros Hr Hreg He Hno Ht. pose proof (reachable_I2 _ Hr) as H2.
  assert (step w (Invoke (call_RegisterEdgeDetection L e cb) None) w1) as Hs
    by by constructor.
  destruct (exec_keeps_registration w1 ls w2 L (mkReg L e cb)) as [H2' Hst]; try done.
  - by eapply step_I2.
  - rewrite (step_registeredPins _ _ _ Hs). by rewrite lookup_insert_eq.
  - rewrite (step_settled _ _ _ H2 Hs). by rewrite lookup_insert_eq.
  - inversion Ht as [| | |w0 d0 v0 Hsel Hv]; subst.
    by rewrite <- (settled_Selecting _ H2' Hsel).
Qed.

(** C10.  [StopPolling] and [Stop] clear no registration: when they
    return, the client's [registeredPins] and the poller's registry
    (with the message it had in hand applied) hold what they held, and
    [Stop] has only lowered the two flags.  A pin registered before
    [Stop] is therefore refused as already registered once the client
    has been started and set polling again. *)
Theorem Stop_keeps_registrations w w' (closeErr : error) :
  (StopPolling w = Done tt w' ->
   registeredPins (client w') = registeredPins (client w) /\
   settled w' = settled w /\
   (quiescent w -> registry w' = registry w) /\
   open (client w') = open (client w)) /\
  (Stop closeErr w = Done tt w' ->
   registeredPins (client w') = registeredPins (client w) /\
   settled w' = settled w /\
   (quiescent w -> registry w' = registry w) /\
   open (client w') = false /\
   (open (client w) = true -> polling (client w') = false) /\
   (forall (L : Pin) (openErr : error) w1 w2 e cb,
      is_Some (registeredPins (client w) !! L) ->
      Start openErr w' = Done tt w1 ->
      Poll w1 = Done tt w2 ->
      RegisterEdgeDetection L e cb w2 = Done (Some AlreadyRegistered) w2)).
Proof.
  assert (forall w0 w1, StopPolling w0 = Done tt w1 ->
            registeredPins (client w1) = registeredPins (client w0) /\
            settled w1 = settled w0 /\
            (quiescent w0 -> registry w1 = registry w0) /\
            open (client w1) = open (client w0) /\
            (open (client w0) = true -> polling (client w1) = false)) as Hsp.
  { intros w0 w1 H. pose proof (StopPolling_settled _ _ _ H) as Hst.
    apply StopPolling_Done in H as [[Hp ->]|(_ & k & _ & ->)]; [by rewrite Hp|].
    split_and!; try done.
    intros Hq. unfold registry; simpl. by rewrite settle_quiescent. }
  split.
  - intros H. by destruct (Hsp _ _ H) as (? & ? & ? & ? & _).
  - intros H. apply Stop_Done in H as [[Ho ->]|(Ho & _ & w1 & Hw1 & ->)].
    + split_and!; try done; [by rewrite Ho|].
      intros L oe w1 w2 e cb [b HL] H1 H2.
      apply Start_Done in H1 as [[Ho' ->]|(_ & _ & ->)]; [congruence|].
      apply Poll_Done in H2 as [[Hp ->]|(_ & ->)];
        by apply RegisterEdgeDetection_dup.
    + assert (registeredPins (client w1) = registeredPins (client w) /\
              settled w1 = settled w /\
              (quiescent w -> registry w1 = registry w) /\
              (polling (client w1) = false)) as (Hr & Hst & Hq & Hp1).
      { destruct (polling (client w)) eqn:Hp; [|by subst].
        destruct (Hsp _ _ Hw1) as (? & ? & ? & ? & ?). split_and!; auto. }
      split_and!; try done.
      intros L oe w2 w3 e cb [b HL] H1 H2. rewrite <- Hr in HL.
      apply Start_Done in H1 as [[Ho' _]|(_ & _ & ->)]; [done|].
      apply Poll_Done in H2 as [[Hp ->]|(_ & ->)];
        by apply RegisterEdgeDetection_dup.
Qed.

(** ** The two registries *)

(** C5 (I1).  In every world the process can reach, the pins of the
    client's [registeredPins] are the pins of the poller's registry once
    the message the poller holds in hand is applied, each registration
    under its own pin.  A registration or removal that returns [nil] has
    already updated the client's map, and its message is in the poller's
    hand.  Whenever the poller goroutine is in [select], and as soon as
    it has run the body of the message it holds, the two maps have
    exactly the same pins. *)
Theorem registries_agree w :
  reachable w ->
  I1 w /\
  (Selecting ∈ goroutines w ->
   dom (registeredPins (client w)) = dom (registry w) /\
   map_Forall (fun k reg => pin reg = k) (registry w)) /\
  (forall l1 m l2 p,
     goroutines w = l1 ++ Received m :: l2 ->
     body m (poller (client w)) = Continue p ->
     dom (registeredPins (client w)) = dom (p_registeredPins p)) /\
  (forall (L : Pin) e cb w',
     RegisterEdgeDetection L e cb w = Done None w' ->
     L ∈ dom (registeredPins (client w')) /\
     goroutines w' = [Received (newPin (mkReg L e cb))] /\
     settled w' !! L = Some (mkReg L e cb)) /\
  (forall (L : Pin) w',
     RemoveEdgeDetectionRegistration L w = Done None w' ->
     (L ∉ dom (registeredPins (client w'))) /\
     goroutines w' = [Received (removePin L)] /\
     settled w' !! L = None).
Proof.
  intros Hr. pose proof (reachable_I2 _ Hr) as H2.
  pose proof (reachable_I1 _ Hr) as H1. split_and!.
  - exact H1.
  - intros Hsel. rewrite <- (settled_Selecting _ H2 Hsel). exact H1.
  - intros l1 m l2 p Hgs Hb.
    pose proof (step_continue _ _ _ _ _ Hgs Hb) as Hs.
    pose proof (step_I2 _ _ _ H2 Hs) as H2'.
    pose proof (step_settled _ _ _ H2 Hs) as Hst. simpl in Hst.
    rewrite settled_Selecting in Hst;
      [|done|simpl; apply elem_of_app; right; apply elem_of_cons; by left].
    destruct H1 as [Hd _]. rewrite Hd, <- Hst. done.
  - intros L e cb w' H.
    apply RegisterEdgeDetection_Done in H
      as [(_ & ? & _)|[(_ & _ & ? & _)|[(_ & _ & _ & ? & _)|(_ & Hp & _ & _ & k & Hk & ->)]]];
      try done.
    unfold I2 in H2. simpl in Hk. rewrite Hp, Hk in H2. simplify_eq. split_and!.
    + simpl. apply elem_of_dom. by rewrite lookup_insert_eq.
    + done.
    + rewrite settled_accepted, after_body_registry. simpl. by rewrite lookup_insert_eq.
  - intros L w' H.
    apply RemoveEdgeDetectionRegistration_Done in H
      as [(_ & ? & _)|[(_ & _ & ? & _)|[(_ & _ & _ & ? & _)|(_ & Hp & _ & _ & k & Hk & ->)]]];
      try done.
    unfold I2 in H2. simpl in Hk. rewrite Hp, Hk in H2. simplify_eq. split_and!.
    + simpl. rewrite elem_of_dom, lookup_delete_eq. by intros [? ?].
    + done.
    + rewrite settled_accepted, after_body_registry. by rewrite lookup_delete_eq.
Qed.

(** ** The frequency update *)

(** [UpdatePollFreq] as it is written: it returns an error exactly
    when the GPIO is not open; the error reads "polling has not yet
    started" and the world is untouched.  On an open client it sends
    the duration to the poller; it returns [nil] when a goroutine of the
    poller is there to take the send, and what it has then done is that
    send alone. *)
Theorem UpdatePollFreq_spec w d :
  (open (client w) = false ->
   UpdatePollFreq d w = Done (Some PollFreqNotOpen) w) /\
  (forall err w',
     UpdatePollFreq d w = Done (Some err) w' ->
     open (client w) = false /\ err = PollFreqNotOpen) /\
  (forall k,
     open (client w) = true -> poller_ok w ->
     length (live (goroutines w)) = S k ->
     UpdatePollFreq d w = Done None (accepted (newPollFreq d) k w)) /\
  (forall w',
     UpdatePollFreq d w = Done None w' ->
     open (client w) = true /\
     log w' = log w ++ [chan_send (newPollFreq d)] /\
     open (client w') = true /\
     polling (client w') = polling (client w) /\
     registeredPins (client w') = registeredPins (client w) /\
     settled w' = settled w).
Proof.
  split_and!.
  - intros Ho. unfold UpdatePollFreq, bind, self, ret. by rewrite Ho.
  - intros err w' H. by apply UpdatePollFreq_Done in H as [(? & ? & _)|(_ & ? & _)]; simplify_eq.
  - intros k Ho Hok Hk. unfold UpdatePollFreq, bind, self, ret. rewrite Ho. simpl.
    by rewrite (send_accepted _ _ k).
  - intros w' H. apply UpdatePollFreq_Done in H as [(_ & ? & _)|(Ho & _ & k & Hk & ->)];
      [done|].
    split_and!; try done. by rewrite settled_accepted, after_body_registry.
Qed.

(** ** After a removal *)

Lemma exec_silent w ls w' (L : Pin) :
  I2 w -> settled w !! L = None -> exec w ls w' ->
  (forall e cb, Invoke (call_RegisterEdgeDetection L e cb) None ∉ ls) ->
  forall detected visit,
    Tick detected visit ∈ ls -> L ∉ (fired detected visit).*1.
Proof.
  intros H2 Hst He. revert H2 Hst.
  induction He as [|w l w' ls w'' Hs _ IH]; intros H2 Hst Hno detected visit Hin.
  - by apply elem_of_nil in Hin.
  - apply elem_of_cons in Hin as [<-|Hin].
    + inversion Hs as [| | |w0 d0 v0 Hsel Hv]; subst.
      rewrite (settled_Selecting _ H2 Hsel) in Hst.
      intros ([k r] & Hk & Hf)%list_elem_of_fmap. simpl in Hk. subst k.
      apply list_elem_of_filter in Hf as [_ Hf]. rewrite Hv in Hf.
      apply elem_of_map_to_list in Hf. congruence.
    + apply IH with (detected := detected) (visit := visit); try done.
      * by eapply step_I2.
      * rewrite (step_settled _ _ _ H2 Hs).
        destruct l as [[| | | |pin' e cb|pin'|] [err|]| |]; try done.
        -- rewrite lookup_insert_ne; [done|]. intros ->.
           specialize (Hno e cb). set_solver.
        -- destruct (decide (pin' = L)) as [->|]; [by rewrite lookup_delete_eq|].
           by rewrite lookup_delete_ne.
      * intros e cb. specialize (Hno e cb). set_solver.
Qed.

(** C7, as the code has it.  Once [RemoveEdgeDetectionRegistration]
    has returned [nil] for pin [L] (the poller then holds the removal
    and deletes the entry before it is back in [select]), no tick of any
    later run of the process starts a callback for [L], whatever the
    pins report, for as long as no new registration of [L] succeeds. *)
Theorem removed_pin_stays_silent w (L : Pin) w1 ls w2 :
  reachable w ->
  RemoveEdgeDetectionRegistration L w = Done None w1 ->
  exec w1 ls w2 ->
  (forall e cb, Invoke (call_RegisterEdgeDetection L e cb) None ∉ ls) ->
  forall detected visit,
    Tick detected visit ∈ ls -> L ∉ (fired detected visit).*1.
Proof.
  intros Hr Hrm. pose proof (reachable_I2 _ Hr) as H2.
  assert (step w (Invoke (call_RemoveEdgeDetectionRegistration L) None) w1) as Hs
    by by constructor.
  apply exec_silent.
  - by eapply step_I2.
  - rewrite (step_settled _ _ _ H2 Hs). apply lookup_delete_eq.
Qed.

End Theory.

(** * The session, step by step *)

Section SessionRuns.

Import Session.

Lemma step_bodies_run (w : World string) m p :
  goroutines w = [Received m] ->
  body m (poller (client w)) = Continue p ->
  step w Body (bodies_run w).
Proof.
  intros Hgs Hb. unfold bodies_run. rewrite Hgs. simpl. rewrite Hb.
  exact (step_continue w [] m [] p Hgs Hb).
Qed.

Lemma step_ticked detected (w : World string) :
  Selecting ∈ goroutines w ->
  Forall (fun kv => is_Some (callback (snd kv)))
    (fired detected (map_to_list (registry w))) ->
  step w (Tick detected (map_to_list (registry w))) (ticked detected w).
Proof. intros Hsel Hfn. by apply step_tick. Qed.

Lemma run_to_both :
  exec w_init
    [Invoke (call_Start None) None; Invoke call_Poll None;
     Invoke (call_RegisterEdgeDetection 4 RiseEdge (Some "cb1")) None; Body;
     Invoke (call_RegisterEdgeDetection 5 FallEdge (Some "cb2")) None; Body]
    w_both.
Proof.
  apply (exec_cons _ _ w_open); [by apply step_invoke|].
  apply (exec_cons _ _ w_polling); [by apply step_invoke|].
  apply (exec_cons _ _ w_sent4); [by apply step_invoke|].
  apply (exec_cons _ _ w_reg4); [by eapply step_bodies_run|].
  apply (exec_cons _ _ w_sent5); [by apply step_invoke|].
  apply (exec_cons _ _ w_both); [by eapply step_bodies_run|].
  apply exec_nil.
Qed.

Lemma reachable_both : reachable w_both.
Proof. eexists. apply run_to_both. Qed.

Lemma reachable_open : reachable w_open.
Proof.
  exists [Invoke (call_Start None) None].
  apply (exec_cons _ _ w_open); [by apply step_invoke|apply exec_nil].
Qed.

(** The four outcomes of a registration, met in the session. *)
Lemma RegisterEdgeDetection_spec_witness :
  RegisterEdgeDetection 4 RiseEdge (Some "cb1") w_init = Done (Some NotOpen) w_init /\
  RegisterEdgeDetection 4 RiseEdge (Some "cb1") w_open = Done (Some NotPolling) w_open /\
  RegisterEdgeDetection 4 AnyEdge (Some "cb3") w_both = Done (Some AlreadyRegistered) w_both /\
  exists w',
    RegisterEdgeDetection 4 RiseEdge (Some "cb1") w_polling = Done None w' /\
    registeredPins (client w') !! 4%N = Some true /\
    goroutines w' = [Received (newPin reg4)] /\
    RegisterEdgeDetection 4 AnyEdge (Some "cb3") w' = Done (Some AlreadyRegistered) w'.
Proof.
  split_and!.
  - apply (RegisterEdgeDetection_spec w_init 4 RiseEdge (Some "cb1")). reflexivity.
  - apply (RegisterEdgeDetection_spec w_open 4 RiseEdge (Some "cb1")); reflexivity.
  - apply (RegisterEdgeDetection_spec w_both 4 AnyEdge (Some "cb3"));
      [reflexivity|reflexivity|]. exists true. vm_compute. reflexivity.
  - destruct (RegisterEdgeDetection_spec w_polling 4 RiseEdge (Some "cb1")) as (_ & _ & _ & H).
    destruct H as (w' & Hw' & Ho & Hp & Hr & _ & Hg & Hdup).
    + reflexivity.
    + reflexivity.
    + reflexivity.
    + reflexivity.
    + eexists. reflexivity.
    + exists w'. split_and!; [done| |done|].
      * rewrite Hr. apply lookup_insert_eq.
      * apply (Hdup [] w' AnyEdge (Some "cb3")); [apply exec_nil|apply not_elem_of_nil|done..].
Defined.

(** The outcomes of a removal, met in the session. *)
Lemma RemoveEdgeDetectionRegistration_spec_witness :
  RemoveEdgeDetectionRegistration 4 w_init = Done (Some NotOpen) w_init /\
  RemoveEdgeDetectionRegistration 4 w_open = Done (Some NotPolling) w_open /\
  RemoveEdgeDetectionRegistration 7 w_both = Done (Some NotRegistered) w_both /\
  exists w',
    RemoveEdgeDetectionRegistration 4 w_both = Done None w' /\
    registeredPins (client w') !! 4%N = None /\
    goroutines w' = [Received (removePin 4)].
Proof.
  split_and!.
  - apply (RemoveEdgeDetectionRegistration_spec w_init 4). reflexivity.
  - apply (RemoveEdgeDetectionRegistration_spec w_open 4); reflexivity.
  - destruct (RemoveEdgeDetectionRegistration_spec w_both 7) as (_ & _ & _ & H & _).
    apply (H _ run_to_both); [|reflexivity|reflexivity].
    intros e cb Hin. repeat (apply elem_of_cons in Hin as [Hin|Hin]; [discriminate|]).
    by apply elem_of_nil in Hin.
  - destruct (RemoveEdgeDetectionRegistration_spec w_both 4) as (_ & _ & _ & _ & H).
    destruct H as (w' & Hw' & _ & _ & Hr & _ & Hg).
    + reflexivity.
    + reflexivity.
    + exists true. vm_compute. reflexivity.
    + reflexivity.
    + eexists. reflexivity.
    + exists w'. split_and!; [done| |done]. rewrite Hr. apply lookup_delete_eq.
Defined.

(** A duplicate registration is refused in the world it found. *)
Lemma error_leaves_world_untouched_witness :
  world_of (RegisterEdgeDetection 4 AnyEdge (Some "cb3") w_both) = w_both /\
  world_of (RemoveEdgeDetectionRegistration 7 w_both) = w_both /\
  world_of (UpdatePollFreq 5 w_init) = w_init.
Proof.
  split_and!.
  - apply (proj1 (error_leaves_world_untouched w_both _ AlreadyRegistered)
             4%N AnyEdge (Some "cb3")).
    vm_compute. reflexivity.
  - apply (proj1 (proj2 (error_leaves_world_untouched w_both _ NotRegistered)) 7%N).
    vm_compute. reflexivity.
  - apply (proj2 (proj2 (error_leaves_world_untouched w_init _ PollFreqNotOpen)) 5%Z).
    vm_compute. reflexivity.
Defined.

(** A tick on which only pin 4 reports an edge, with pins 4 and 5
    registered. *)
Lemma tick_invokes_once_witness :
  filter (fun kv => fst kv = 4%N) (fired edge_on_4 (map_to_list (registry w_both)))
  = [(4%N, reg4)] /\
  log (ticked edge_on_4 w_both)
  = log w_both ++ spawns (fired edge_on_4 (map_to_list (registry w_both))).
Proof.
  destruct (tick_invokes_once w_both (ticked edge_on_4 w_both) 4 RiseEdge (Some "cb1")
              edge_on_4 (map_to_list (registry w_both))) as (cb & Hcb & H1 & H2 & _).
  - vm_compute. reflexivity.
  - reflexivity.
  - apply step_ticked; vm_compute; [apply list_elem_of_here|repeat econstructor].
  - injection Hcb as <-. split; [exact H1|exact H2].
Defined.

(** Removing pin 7, which the poller does not know, and registering
    pin 4 over an entry for pin 4. *)
Lemma body_registry_spec_witness :
  body (removePin 7) (poller (client w_both)) = Continue (poller (client w_both)) /\
  exists p',
    body (newPin (mkReg 4 AnyEdge (Some "cb3"))) (poller (client w_both)) = Continue p' /\
    p_registeredPins p' !! 4%N = Some (mkReg 4 AnyEdge (Some "cb3")).
Proof.
  destruct (body_registry_spec (poller (client w_both)) 7 (mkReg 4 AnyEdge (Some "cb3")))
    as (_ & H & (p' & Hb & _ & Hl & _)).
  split.
  - apply H. vm_compute. reflexivity.
  - exists p'. split; [exact Hb|exact Hl].
Defined.

(** [Stop] with the registration of pin 4 still in the poller's hand. *)
Lemma Stop_keeps_registrations_witness :
  registeredPins (client (world_of (Stop None w_sent4))) = registeredPins (client w_sent4) /\
  settled (world_of (Stop None w_sent4)) = settled w_sent4 /\
  open (client (world_of (Stop None w_sent4))) = false.
Proof.
  destruct (Stop_keeps_registrations w_sent4 (world_of (Stop None w_sent4)) None)
    as (_ & H).
  destruct H as (H1 & H2 & _ & H3 & _).
  - vm_compute. reflexivity.
  - split_and!; [exact H1|exact H2|exact H3].
Defined.

(** The two registries in the session, with both messages applied. *)
Lemma registries_agree_witness :
  I1 w_both /\ dom (registeredPins (client w_both)) = dom (registry w_both).
Proof.
  destruct (registries_agree w_both reachable_both) as (H1 & H2 & _).
  split; [exact H1|]. apply H2. vm_compute. apply list_elem_of_here.
Defined.

(** The frequency update on the closed and on the polling client. *)
Lemma UpdatePollFreq_spec_witness :
  UpdatePollFreq 5 w_init = Done (Some PollFreqNotOpen) w_init /\
  UpdatePollFreq 5 w_both = Done None (accepted (newPollFreq 5) 0 w_both).
Proof.
  split.
  - apply (UpdatePollFreq_spec w_init 5). reflexivity.
  - apply (UpdatePollFreq_spec w_both 5); [reflexivity|eexists; reflexivity|reflexivity].
Defined.

(** On an open client [UpdatePollFreq] does not always return [nil]:
    after [Start()] alone no goroutine runs the loop. *)
Lemma UpdatePollFreq_open_not_polling :
  ~ (forall (w : World string) (d : Z),
       reachable w -> open (client w) = true ->
       exists w', UpdatePollFreq d w = Done None w').
Proof.
  intros H. destruct (H w_open 5%Z reachable_open eq_refl) as [w' Hw']. discriminate Hw'.
Qed.

(** C6 (a defect of the code).  After [Start()] alone the client is
    open, polling has not started and no goroutine runs the loop.  The
    guard of [UpdatePollFreq] tests [open], although the error it
    returns reads "polling has not yet started" and although
    [RegisterEdgeDetection] and [RemoveEdgeDetectionRegistration] check
    [polling] before they send and refuse the call here.  So
    [UpdatePollFreq] gets past its guard and stays parked on its send:
    it does not return, where the claim has it return success. *)
Theorem UpdatePollFreq_parked :
  reachable w_open /\
  open (client w_open) = true /\ polling (client w_open) = false /\
  goroutines w_open = [] /\
  UpdatePollFreq 5 w_open = Block w_open /\
  RegisterEdgeDetection 4 RiseEdge (Some "cb1") w_open = Done (Some NotPolling) w_open /\
  RemoveEdgeDetectionRegistration 4 w_open = Done (Some NotPolling) w_open.
Proof. split; [apply reachable_open|]. by split_and!. Qed.

(** After the removal of pin 4: the poller applies it, pin 5 stays. *)
Lemma removed_pin_stays_silent_witness :
  4%N ∉ (fired all_edges (map_to_list (registry w_unreg4))).*1.
Proof.
  apply (removed_pin_stays_silent w_both 4 w_unsent4
           [Body; Tick all_edges (map_to_list (registry w_unreg4))]
           (ticked all_edges w_unreg4) reachable_both).
  - reflexivity.
  - apply (exec_cons _ _ w_unreg4); [by eapply step_bodies_run|].
    apply (exec_cons _ _ (ticked all_edges w_unreg4)); [|apply exec_nil].
    apply step_ticked; vm_compute; [apply list_elem_of_here|repeat econstructor].
  - intros e cb Hin. repeat (apply elem_of_cons in Hin as [Hin|Hin]; [discriminate|]).
    by apply elem_of_nil in Hin.
  - apply elem_of_cons. right. apply list_elem_of_here.
Defined.

(** C7 as stated fails: pin 4 is removed, the poller applies the
    removal, pin 4 is registered anew, and the next tick starts the new
    callback for pin 4. *)
Lemma removed_pin_registered_anew :
  ~ (forall (w : World string) (L : N) w1 w1' ls w2,
       reachable w ->
       RemoveEdgeDetectionRegistration L w = Done None w1 ->
       step w1 Body w1' ->
       exec w1' ls w2 ->
       forall detected visit,
         Tick detected visit ∈ ls -> L ∉ (fired detected visit).*1).
Proof.
  intros H.
  apply (H w_both 4%N w_unsent4 w_unreg4
           [Invoke (call_RegisterEdgeDetection 4 AnyEdge (Some "cb3")) None; Body;
            Tick all_edges (map_to_list (registry w_rereg4))]
           (ticked all_edges w_rereg4) reachable_both eq_refl
           ltac:(by eapply step_bodies_run)
           ltac:(apply (exec_cons _ _ w_resent4); [by apply step_invoke|];
                 apply (exec_cons _ _ w_rereg4); [by eapply step_bodies_run|];
                 apply (exec_cons _ _ (ticked all_edges w_rereg4)); [|apply exec_nil];
                 apply step_ticked; vm_compute; [apply list_elem_of_here|repeat econstructor])
           all_edges (map_to_list (registry w_rereg4))).
  - do 2 (apply elem_of_cons; right). apply list_elem_of_here.
  - vm_compute. apply list_elem_of_here.
Qed.

End SessionRuns.

(** * Further properties of the client and the poller *)

Section Beyond.

Context {Callback : Type}.
Implicit Types (w : World Callback) (p : rpioPoller Callback)
  (gs : list (pollState Callback)) (m : Msg Callback)
  (reg : pinRegistration Callback) (ls : list (Label Callback))
  (es : list (Effect Callback)).

(** ** Steps, effect by effect *)

Lemma exec_snoc w ls w' l w'' :
  exec w ls w' -> step w' l w'' -> exec w (ls ++ [l]) w''.
Proof.
  induction 1 as [|w0 l0 w1 ls w2 Hs _ IH]; intros Hl; simpl.
  - eapply exec_cons; [done|apply exec_nil].
  - eapply exec_cons; [done|by apply IH].
Qed.

Lemma reachable_step w l w' : reachable w -> step w l w' -> reachable w'.
Proof. intros [ls He] Hs. exists (ls ++ [l]). by eapply exec_snoc. Qed.

Lemma step_log w l w' : step w l w' -> log w' = log w ++ emitted w l.
Proof.
  destruct 1 as [w c err w' H| | |]; simpl; try by rewrite app_nil_r.
  2: done.
  destruct c; unfold invoke in H; simpl in H.
  - unfold bind, ret in H. destruct (Start _ w) as [[] w1| |] eqn:E; simplify_eq.
    apply Start_Done in E as [[-> ->]|(-> & _ & ->)]; [by rewrite app_nil_r|done].
  - unfold bind, ret in H. destruct (Poll w) as [[] w1| |] eqn:E; simplify_eq.
    apply Poll_Done in E as [[-> ->]|(-> & ->)]; [by rewrite app_nil_r|done].
  - unfold bind, ret in H. destruct (StopPolling w) as [[] w1| |] eqn:E; simplify_eq.
    apply StopPolling_Done in E as [[-> ->]|(-> & k & _ & ->)];
      [by rewrite app_nil_r|done].
  - unfold bind, ret in H. destruct (Stop _ w) as [[] w1| |] eqn:E; simplify_eq.
    apply Stop_Done in E as [[-> ->]|(-> & _ & w1 & Hw1 & ->)];
      [by rewrite app_nil_r|]. simpl.
    destruct (polling (client w)) eqn:Hp; [|by subst].
    apply StopPolling_Done in Hw1 as [[? _]|(_ & k & _ & ->)]; [congruence|].
    simpl. by rewrite <- app_assoc.
  - apply RegisterEdgeDetection_Done in H
      as [(_ & -> & ->)|[(_ & _ & -> & ->)|[(_ & _ & _ & -> & ->)|(_ & _ & _ & -> & k & _ & ->)]]];
      try by rewrite app_nil_r.
    simpl. by rewrite <- app_assoc.
  - apply RemoveEdgeDetectionRegistration_Done in H
      as [(_ & -> & ->)|[(_ & _ & -> & ->)|[(_ & _ & _ & -> & ->)|(_ & _ & _ & -> & k & _ & ->)]]];
      try by rewrite app_nil_r.
    simpl. by rewrite <- app_assoc.
  - apply UpdatePollFreq_Done in H as [(_ & -> & ->)|(_ & -> & k & _ & ->)];
      [by rewrite app_nil_r|done].
Qed.

Lemma step_open w l w' :
  step w l w' ->
  open (client w') =
  match l with
  | Invoke (call_Start _) _ => true
  | Invoke (call_Stop _) _ => false
  | _ => open (client w)
  end.
Proof.
  destruct 1 as [w c err w' H| | |]; try done.
  destruct c; unfold invoke in H; simpl in H.
  - unfold bind, ret in H. destruct (Start _ w) as [[] w1| |] eqn:E; simplify_eq.
    by apply Start_Done in E as [[? ->]|(_ & _ & ->)].
  - unfold bind, ret in H. destruct (Poll w) as [[] w1| |] eqn:E; simplify_eq.
    by apply Poll_Done in E as [[_ ->]|(_ & ->)].
  - unfold bind, ret in H. destruct (StopPolling w) as [[] w1| |] eqn:E; simplify_eq.
    by apply StopPolling_Done in E as [[_ ->]|(_ & k & _ & ->)].
  - unfold bind, ret in H. destruct (Stop _ w) as [[] w1| |] eqn:E; simplify_eq.
    by apply Stop_Done in E as [[? ->]|(_ & _ & w1 & Hw1 & ->)].
  - by apply RegisterEdgeDetection_Done in H
      as [(_ & _ & ->)|[(_ & _ & _ & ->)|[(_ & _ & _ & _ & ->)|(_ & _ & _ & _ & k & _ & ->)]]].
  - by apply RemoveEdgeDetectionRegistration_Done in H
      as [(_ & _ & ->)|[(_ & _ & _ & ->)|[(_ & _ & _ & _ & ->)|(_ & _ & _ & _ & k & _ & ->)]]].
  - by apply UpdatePollFreq_Done in H as [(_ & _ & ->)|(_ & _ & k & _ & ->)].
Qed.

Lemma step_polling w l w' :
  step w l w' ->
  polling (client w') =
  match l with
  | Invoke call_Poll _ => true
  | Invoke call_StopPolling _ => false
  | Invoke (call_Stop _) _ => if open (client w) then false else polling (client w)
  | _ => polling (client w)
  end.
Proof.
  destruct 1 as [w c err w' H| | |]; try done.
  destruct c; unfold invoke in H; simpl in H.
  - unfold bind, ret in H. destruct (Start _ w) as [[] w1| |] eqn:E; simplify_eq.
    by apply Start_Done in E as [[? ->]|(_ & _ & ->)].
  - unfold bind, ret in H. destruct (Poll w) as [[] w1| |] eqn:E; simplify_eq.
    by apply Poll_Done in E as [[? ->]|(_ & ->)].
  - unfold bind, ret in H. destruct (StopPolling w) as [[] w1| |] eqn:E; simplify_eq.
    by apply StopPolling_Done in E as [[? ->]|(_ & k & _ & ->)].
  - unfold bind, ret in H. destruct (Stop _ w) as [[] w1| |] eqn:E; simplify_eq.
    apply Stop_Done in E as [[-> ->]|(-> & _ & w1 & Hw1 & ->)]; [done|]. simpl.
    destruct (polling (client w)) eqn:Hp; [|by subst].
    by apply StopPolling_Done in Hw1 as [[? ->]|(_ & k & _ & ->)].
  - by apply RegisterEdgeDetection_Done in H
      as [(_ & _ & ->)|[(_ & _ & _ & ->)|[(_ & _ & _ & _ & ->)|(_ & _ & _ & _ & k & _ & ->)]]].
  - by apply RemoveEdgeDetectionRegistration_Done in H
      as [(_ & _ & ->)|[(_ & _ & _ & ->)|[(_ & _ & _ & _ & ->)|(_ & _ & _ & _ & k & _ & ->)]]].
  - by apply UpdatePollFreq_Done in H as [(_ & _ & ->)|(_ & _ & k & _ & ->)].
Qed.

(** ** The goroutines of the loop *)

Lemma live_none gs :
  length (live gs) = 0 <-> Forall (fun g => stopping g = true) gs.
Proof.
  induction gs as [|g gs IH]; [done|]. rewrite live_cons, Forall_cons.
  destruct (stopping g); simpl; [|split; [lia|by intros [? _]]].
  rewrite IH. split; [by split|by intros [_ ?]].
Qed.

Lemma live_one gs :
  length (live gs) = 1 ->
  exists l1 g l2, gs = l1 ++ g :: l2 /\ stopping g = false /\
    Forall (fun g => stopping g = true) (l1 ++ l2).
Proof.
  induction gs as [|g gs IH]; [done|]. rewrite live_cons.
  destruct (stopping g) eqn:Hg; simpl; intros Hl.
  - destruct (IH Hl) as (l1 & g' & l2 & -> & Hg' & Hall).
    exists (g :: l1), g', l2. split_and!; [done..|]. by constructor.
  - exists [], g, gs. split_and!; [done..|]. apply live_none. simpl. lia.
Qed.

Lemma run_bodies_not_live gs p :
  length (live gs) = 0 -> run_bodies gs p = inr ([], p).
Proof.
  induction gs as [|g gs IH]; [done|]. rewrite live_cons.
  destruct g as [|[]]; simpl; try lia. exact IH.
Qed.

Lemma run_bodies_doomed gs p :
  (exists r, run_bodies gs p = inr r) <-> Forall (fun g => doomed g = false) gs.
Proof.
  assert (forall x : string + list (pollState Callback) * rpioPoller Callback,
            (exists r, match x with
                       | inr (gs1, p1) => inr (Selecting :: gs1, p1)
                       | inl msg => inl msg
                       end = inr r) <-> (exists r : _ * _, x = inr r)) as Hmap.
  { intros [msg|[gs1 p1]]; split; intros [r Hr]; simplify_eq; by eexists. }
  revert p. induction gs as [|g gs IH]; intros p; simpl.
  - split; [done|by eexists].
  - rewrite Forall_cons. destruct g as [|[r|k|d|]]; simpl.
    + rewrite Hmap, IH. split; [by split|by intros [_ ?]].
    + rewrite Hmap, IH. split; [by split|by intros [_ ?]].
    + rewrite Hmap, IH. split; [by split|by intros [_ ?]].
    + destruct (d <=? 0)%Z.
      * split; [by intros [? ?]|by intros [? _]].
      * rewrite Hmap, IH. split; [by split|by intros [_ ?]].
    + rewrite IH. split; [by split|by intros [_ ?]].
Qed.

Lemma send_Block m w w' :
  send m w = Block w' -> length (live (goroutines w)) = 0.
Proof.
  unfold send. destruct (run_bodies _ _) as [|[gs p]] eqn:E; [done|].
  destruct (run_bodies_inr _ _ _ _ E) as [-> ->].
  rewrite deliver_replicate. by destruct (length (live (goroutines w))).
Qed.

(** X1.  At any moment of any run, while [polling] is set exactly one
    goroutine is in the loop of [poll], and while it is not set none is:
    the goroutines still around have taken [stop], and all they do is
    leave, without touching the poller. *)
Theorem one_loop_at_a_time w :
  reachable w ->
  (polling (client w) = true ->
   exists l1 g l2,
     goroutines w = l1 ++ g :: l2 /\ stopping g = false /\
     Forall (fun g => stopping g = true) (l1 ++ l2)) /\
  (polling (client w) = false ->
   Forall (fun g => stopping g = true) (goroutines w) /\
   forall p, run_bodies (goroutines w) p = inr ([], p)).
Proof.
  intros Hr. pose proof (reachable_I2 _ Hr) as H2. unfold I2 in H2. split.
  - intros Hp. rewrite Hp in H2. by apply live_one.
  - intros Hp. rewrite Hp in H2. split; [by apply live_none|].
    intros p. by apply run_bodies_not_live.
Qed.

(** X2.  The sends of [RegisterEdgeDetection],
    [RemoveEdgeDetectionRegistration], [StopPolling] and [Stop] sit
    behind the [polling] check, and in no world a run can reach does one
    of these calls stay parked on its send. *)
Theorem guarded_calls_never_park w (L : Pin) e cb (closeErr : error) w' :
  reachable w ->
  RegisterEdgeDetection L e cb w <> Block w' /\
  RemoveEdgeDetectionRegistration L w <> Block w' /\
  StopPolling w <> Block w' /\
  Stop closeErr w <> Block w'.
Proof.
  intros Hr. pose proof (reachable_I2 _ Hr) as H2. unfold I2 in H2.
  assert (StopPolling w <> Block w') as Hsp.
  { unfold StopPolling, bind, self, ret, assign.
    destruct (polling (client w)) eqn:Hp; simpl; [|done].
    destruct (send stop w) as [[] w1| |] eqn:Es; try done.
    apply send_Block in Es. rewrite Es in H2. intros _. lia. }
  split_and!; [| |done|].
  - unfold RegisterEdgeDetection, bind at 1, self.
    destruct (open (client w)); simpl; [|done].
    destruct (polling (client w)) eqn:Hp; simpl; [|done].
    destruct (registeredPins (client w) !! L); [done|].
    unfold bind, assign, emit, ret.
    match goal with |- context [send ?m ?w0] =>
      destruct (send m w0) as [[] w1| |] eqn:Es; try done end.
    apply send_Block in Es. simpl in Es. rewrite Es in H2. intros _. lia.
  - unfold RemoveEdgeDetectionRegistration, bind at 1, self.
    destruct (open (client w)); simpl; [|done].
    destruct (polling (client w)) eqn:Hp; simpl; [|done].
    destruct (registeredPins (client w) !! L); [|done].
    unfold bind, assign, emit, ret.
    match goal with |- context [send ?m ?w0] =>
      destruct (send m w0) as [[] w1| |] eqn:Es; try done end.
    apply send_Block in Es. simpl in Es. rewrite Es in H2. intros _. lia.
  - unfold Stop, bind at 1, self.
    destruct (open (client w)); simpl; [|done].
    unfold bind at 1.
    destruct (polling (client w)) eqn:Hp.
    + destruct (StopPolling w) as [[] w1| |] eqn:Es; [| |done].
      * unfold bind, emit, assign, panic. simpl. by destruct closeErr.
      * done.
    + unfold bind, ret, emit, assign, panic. simpl. by destruct closeErr.
Qed.

(** X3.  [UpdatePollFreq] sends without looking at [polling]: in a
    world a run can reach it stays parked on the send exactly when the
    GPIO is open and polling has not been started (or was stopped). *)
Theorem UpdatePollFreq_parks_iff w d :
  reachable w ->
  (exists w', UpdatePollFreq d w = Block w') <->
  open (client w) = true /\ polling (client w) = false.
Proof.
  intros Hr. pose proof (reachable_I2 _ Hr) as H2. unfold I2 in H2.
  unfold UpdatePollFreq, bind, self, ret.
  destruct (open (client w)); simpl; [|by split; [intros []|intros []]].
  split.
  - intros [w' H]. destruct (send (newPollFreq d) w) as [[] w1| |] eqn:Es; try done.
    apply send_Block in Es. rewrite Es in H2. by destruct (polling (client w)).
  - intros [_ Hp]. rewrite Hp in H2. unfold send.
    rewrite run_bodies_not_live by done. simpl. by eexists.
Qed.

(** ** Calls that go through *)

Lemma RegisterEdgeDetection_accepted w (L : Pin) e cb :
  I2 w -> poller_ok w ->
  open (client w) = true -> polling (client w) = true ->
  registeredPins (client w) !! L = None ->
  RegisterEdgeDetection L e cb w =
  Done None
    (accepted (newPin (mkReg L e cb)) 0
       (add_log [pin_Detect L e]
          (set_client (set_registeredPins (<[L := true]> (registeredPins (client w)))
                         (client w)) w))).
Proof.
  intros H2 Hok Ho Hp Hl. unfold I2 in H2. rewrite Hp in H2.
  unfold RegisterEdgeDetection, bind at 1, self. rewrite Ho, Hp, Hl. simpl.
  unfold bind, assign, emit, ret. by rewrite (send_accepted _ _ 0).
Qed.

Lemma RemoveEdgeDetectionRegistration_accepted w (L : Pin) :
  I2 w -> poller_ok w ->
  open (client w) = true -> polling (client w) = true ->
  is_Some (registeredPins (client w) !! L) ->
  RemoveEdgeDetectionRegistration L w =
  Done None
    (accepted (removePin L) 0
       (add_log [pin_Detect L NoEdge]
          (set_client (set_registeredPins (delete L (registeredPins (client w)))
                         (client w)) w))).
Proof.
  intros H2 Hok Ho Hp [b Hl]. unfold I2 in H2. rewrite Hp in H2.
  unfold RemoveEdgeDetectionRegistration, bind at 1, self. rewrite Ho, Hp, Hl. simpl.
  unfold bind, assign, emit, ret. by rewrite (send_accepted _ _ 0).
Qed.

Lemma accepted_poller_ok m k w :
  doomed (Received m) = false -> poller_ok (accepted m k w).
Proof.
  intros Hm. apply run_bodies_doomed. simpl. constructor; [done|].
  by apply Forall_replicate.
Qed.

Lemma step_doomed w l w' :
  step w l w' ->
  (forall d err, l = Invoke (call_UpdatePollFreq d) err -> (0 < d)%Z) ->
  Forall (fun g => doomed g = false) (goroutines w) ->
  Forall (fun g => doomed g = false) (goroutines w').
Proof.
  assert (forall k, Forall (fun g : pollState Callback => doomed g = false)
                      (replicate k Selecting)) as Hrep
    by (intros k; by apply Forall_replicate).
  assert (forall u w1, StopPolling w = Done u w1 ->
            Forall (fun g => doomed g = false) (goroutines w) ->
            Forall (fun g => doomed g = false) (goroutines w1)) as Hsp.
  { intros u w1 [[_ ->]|(_ & k & _ & ->)]%StopPolling_Done Hall; [done|].
    simpl. by constructor. }
  destruct 1 as [w c err w' H|w l1 m l2 p Hgs Hb|w l1 m l2 Hgs Hb|]; intros Hd Hall;
    try done.
  - destruct c; unfold invoke in H; simpl in H.
    + unfold bind, ret in H. destruct (Start _ w) as [[] w1| |] eqn:E; simplify_eq.
      by apply Start_Done in E as [[_ ->]|(_ & _ & ->)].
    + unfold bind, ret in H. destruct (Poll w) as [[] w1| |] eqn:E; simplify_eq.
      apply Poll_Done in E as [[_ ->]|(_ & ->)]; [done|]. simpl.
      apply Forall_app. split; [done|by repeat constructor].
    + unfold bind, ret in H. destruct (StopPolling w) as [[] w1| |] eqn:E; simplify_eq.
      by eapply Hsp.
    + unfold bind, ret in H. destruct (Stop _ w) as [[] w1| |] eqn:E; simplify_eq.
      apply Stop_Done in E as [[_ ->]|(_ & _ & w1 & Hw1 & ->)]; [done|]. simpl.
      destruct (polling (client w)); [by eapply Hsp|by subst].
    + apply RegisterEdgeDetection_Done in H
        as [(_ & _ & ->)|[(_ & _ & _ & ->)|[(_ & _ & _ & _ & ->)|(_ & _ & _ & _ & k & _ & ->)]]];
        try done.
      simpl. by constructor.
    + apply RemoveEdgeDetectionRegistration_Done in H
        as [(_ & _ & ->)|[(_ & _ & _ & ->)|[(_ & _ & _ & _ & ->)|(_ & _ & _ & _ & k & _ & ->)]]];
        try done.
      simpl. by constructor.
    + apply UpdatePollFreq_Done in H as [(_ & _ & ->)|(_ & _ & k & _ & ->)]; [done|].
      simpl. constructor; [|done]. simpl. specialize (Hd d err eq_refl). lia.
  - simpl. rewrite Hgs in Hall. apply Forall_app in Hall as [H1 H3].
    apply Forall_cons in H3 as [_ H3]. apply Forall_app. split; [done|by constructor].
  - simpl. rewrite Hgs in Hall. apply Forall_app in Hall as [H1 H3].
    apply Forall_cons in H3 as [_ H3]. by apply Forall_app.
Qed.

Lemma exec_doomed w ls w' :
  exec w ls w' ->
  (forall d err, Invoke (call_UpdatePollFreq d) err ∈ ls -> (0 < d)%Z) ->
  Forall (fun g => doomed g = false) (goroutines w) ->
  Forall (fun g => doomed g = false) (goroutines w').
Proof.
  induction 1 as [|w l w1 ls w2 Hs _ IH]; intros Hpos Hall; [done|].
  apply IH.
  - intros d err Hin. apply (Hpos d err). by apply elem_of_cons; right.
  - eapply step_doomed; [done| |done]. intros d err ->. apply (Hpos d err).
    apply list_elem_of_here.
Qed.

(** X4.  The poller goroutine can only be brought down by a frequency
    that is not positive: a run whose [UpdatePollFreq] calls all pass a
    positive duration ends in a world where the poller finishes what it
    has in hand, and there the registration of a free pin and the
    removal of a registered one return [nil] on the open, polling
    client. *)
Theorem positive_frequencies_keep_poller w ls :
  exec init ls w ->
  (forall d err, Invoke (call_UpdatePollFreq d) err ∈ ls -> (0 < d)%Z) ->
  poller_ok w /\
  (forall (L : Pin) e cb,
     open (client w) = true -> polling (client w) = true ->
     registeredPins (client w) !! L = None ->
     exists w', RegisterEdgeDetection L e cb w = Done None w') /\
  (forall (L : Pin),
     open (client w) = true -> polling (client w) = true ->
     is_Some (registeredPins (client w) !! L) ->
     exists w', RemoveEdgeDetectionRegistration L w = Done None w').
Proof.
  intros He Hpos.
  assert (I2 w) as H2 by (eapply exec_I2; [apply init_I2|done]).
  assert (poller_ok w) as Hok.
  { apply run_bodies_doomed. eapply exec_doomed; [done..|]. constructor. }
  split_and!; [done| |].
  - intros L e cb Ho Hp Hl. eexists. by apply RegisterEdgeDetection_accepted.
  - intros L Ho Hp Hl. eexists. by apply RemoveEdgeDetectionRegistration_accepted.
Qed.

(** ** The ticker *)

Lemma step_Body_single w m w' :
  goroutines w = [Received m] ->
  step w Body w' ->
  (exists p, body m (poller (client w)) = Continue p /\
             w' = set_goroutines [Selecting] (set_client (set_poller p (client w)) w)) \/
  (body m (poller (client w)) = Exit /\ w' = set_goroutines [] w).
Proof.
  intros Hgs Hs. inversion Hs as [|w0 l1 m' l2 p Hgs' Hb|w0 l1 m' l2 Hgs' Hb|]; subst;
    rewrite Hgs in Hgs'; destruct l1 as [|g l1]; simplify_eq/=;
    try (by destruct l1).
  - left. by exists p.
  - by right.
Qed.

(** X5.  A frequency update that returns [nil] has left the duration
    in the hand of the one goroutine of the loop.  That goroutine can
    only go on when the duration is positive; it then makes it the
    period of the ticker and changes nothing else: the registry is the
    one the earlier messages have built, and the client's map is
    untouched. *)
Theorem frequency_update_applied w d w1 :
  reachable w ->
  UpdatePollFreq d w = Done None w1 ->
  polling (client w) = true /\
  goroutines w1 = [Received (newPollFreq d)] /\
  forall w2,
    step w1 Body w2 ->
    (0 < d)%Z /\
    ticker (poller (client w2)) = d /\
    registry w2 = settled w /\
    registeredPins (client w2) = registeredPins (client w) /\
    goroutines w2 = [Selecting].
Proof.
  intros Hr H. pose proof (reachable_I2 _ Hr) as H2. unfold I2 in H2.
  apply UpdatePollFreq_Done in H as [(_ & ? & _)|(_ & _ & k & Hk & ->)]; [done|].
  rewrite Hk in H2. destruct (polling (client w)); [|done]. simplify_eq.
  split_and!; [done..|]. intros w2 Hs.
  apply step_Body_single with (m := newPollFreq d) in Hs; [|done].
  destruct Hs as [(p & Hb & ->)|[Hb _]]; simpl in Hb.
  - destruct (d <=? 0)%Z eqn:Hd; simplify_eq. split_and!; try done. lia.
  - by destruct (d <=? 0)%Z.
Qed.

Lemma after_body_ticker m p :
  (0 < ticker p)%Z -> (0 < ticker (after_body m p))%Z.
Proof.
  unfold after_body. destruct m as [| |d|]; simpl; try done.
  destruct (d <=? 0)%Z eqn:Hd; simpl; lia.
Qed.

Lemma settle_ticker p gs :
  (0 < ticker p)%Z -> (0 < ticker (settle p gs))%Z.
Proof.
  revert p. induction gs as [|g gs IH]; intros p Hp; [done|].
  destruct g as [|m]; apply IH; [done|]. by apply after_body_ticker.
Qed.

Lemma step_ticker w l w' :
  step w l w' ->
  (0 < ticker (poller (client w)))%Z -> (0 < ticker (poller (client w')))%Z.
Proof.
  assert (forall u w1, StopPolling w = Done u w1 ->
            (0 < ticker (poller (client w)))%Z ->
            (0 < ticker (poller (client w1)))%Z) as Hsp.
  { intros u w1 [[_ ->]|(_ & k & _ & ->)]%StopPolling_Done Hp; [done|].
    simpl. by apply settle_ticker. }
  destruct 1 as [w c err w' H|w l1 m l2 p Hgs Hb|w l1 m l2 Hgs Hb|]; intros Hp;
    try done.
  - destruct c; unfold invoke in H; simpl in H.
    + unfold bind, ret in H. destruct (Start _ w) as [[] w1| |] eqn:E; simplify_eq.
      by apply Start_Done in E as [[_ ->]|(_ & _ & ->)].
    + unfold bind, ret in H. destruct (Poll w) as [[] w1| |] eqn:E; simplify_eq.
      by apply Poll_Done in E as [[_ ->]|(_ & ->)].
    + unfold bind, ret in H. destruct (StopPolling w) as [[] w1| |] eqn:E; simplify_eq.
      by eapply Hsp.
    + unfold bind, ret in H. destruct (Stop _ w) as [[] w1| |] eqn:E; simplify_eq.
      apply Stop_Done in E as [[_ ->]|(_ & _ & w1 & Hw1 & ->)]; [done|]. simpl.
      destruct (polling (client w)); [by eapply Hsp|by subst].
    + apply RegisterEdgeDetection_Done in H
        as [(_ & _ & ->)|[(_ & _ & _ & ->)|[(_ & _ & _ & _ & ->)|(_ & _ & _ & _ & k & _ & ->)]]];
        try done.
      simpl. by apply settle_ticker.
    + apply RemoveEdgeDetectionRegistration_Done in H
        as [(_ & _ & ->)|[(_ & _ & _ & ->)|[(_ & _ & _ & _ & ->)|(_ & _ & _ & _ & k & _ & ->)]]];
        try done.
      simpl. by apply settle_ticker.
    + apply UpdatePollFreq_Done in H as [(_ & _ & ->)|(_ & _ & k & _ & ->)]; [done|].
      simpl. by apply settle_ticker.
  - simpl. pose proof (after_body_ticker m _ Hp) as Ha. unfold after_body in Ha.
    by rewrite Hb in Ha.
Qed.

(** X6.  The period of the ticker is positive at any moment of any
    run: it starts as [DefaultPollFreq], and the loop never gets past a
    [Reset] to a duration that is not positive. *)
Theorem ticker_stays_positive w :
  reachable w -> (0 < ticker (poller (client w)))%Z.
Proof.
  intros [ls He].
  assert (0 < ticker (poller (client (@init Callback))))%Z as H0 by done.
  revert H0. generalize dependent (@init Callback).
  intros w0 He. induction He as [|w0 l w1 ls w2 Hs _ IH]; [done|].
  intros H0. apply IH. by eapply step_ticker.
Qed.

(** ** Registrations and removals in a row *)

(** X7.  Registering a free pin and removing it right away returns
    [nil] twice and puts both maps back: the client's [registeredPins]
    and the poller's registry (with the messages in hand applied) are
    what they were, the flags are unchanged, and the four effects are
    the arming of the pin, the registration, the disarming and the
    removal. *)
Theorem register_then_remove w (L : Pin) e cb :
  reachable w -> poller_ok w ->
  open (client w) = true -> polling (client w) = true ->
  registeredPins (client w) !! L = None ->
  exists w1 w2,
    RegisterEdgeDetection L e cb w = Done None w1 /\
    RemoveEdgeDetectionRegistration L w1 = Done None w2 /\
    registeredPins (client w2) = registeredPins (client w) /\
    settled w2 = settled w /\
    open (client w2) = true /\ polling (client w2) = true /\
    log w2 = log w ++ [pin_Detect L e; chan_send (newPin (mkReg L e cb));
                       pin_Detect L NoEdge; chan_send (removePin L)].
Proof.
  intros Hr Hok Ho Hp Hl.
  pose proof (reachable_I2 _ Hr) as H2. destruct (reachable_I1 _ Hr) as [Hd _].
  pose proof (RegisterEdgeDetection_accepted w L e cb H2 Hok Ho Hp Hl) as H1.
  eexists. eexists. split; [exact H1|].
  assert (step w (Invoke (call_RegisterEdgeDetection L e cb) None) _) as Hs1
    by (constructor; exact H1).
  pose proof (step_I2 _ _ _ H2 Hs1) as H2'.
  pose proof (step_settled _ _ _ H2 Hs1) as Hst1. cbv beta iota in Hst1.
  match type of H1 with _ = Done None ?w1 =>
    assert (RemoveEdgeDetectionRegistration L w1 = Done None _) as H3
      by (apply RemoveEdgeDetectionRegistration_accepted;
          [done|by apply accepted_poller_ok|done|done|
           simpl; rewrite lookup_insert_eq; by eexists]) end.
  split; [exact H3|].
  assert (step _ (Invoke (call_RemoveEdgeDetectionRegistration L) None) _) as Hs2
    by (constructor; exact H3).
  pose proof (step_settled _ _ _ H2' Hs2) as Hst2. cbv beta iota in Hst2.
  split_and!; try done.
  - simpl. by apply delete_insert_id.
  - rewrite Hst2, Hst1. apply delete_insert_id.
    apply not_elem_of_dom. rewrite <- Hd. by apply not_elem_of_dom.
  - simpl. by rewrite <- !app_assoc.
Qed.

(** X8.  A pin whose removal has returned [nil] can be registered again
    at once: the registration returns [nil], the pin is back in
    [registeredPins], and the poller's registry will hold the new
    registration, not the old one. *)
Theorem remove_then_register w (L : Pin) w1 e cb :
  reachable w ->
  RemoveEdgeDetectionRegistration L w = Done None w1 ->
  exists w2,
    RegisterEdgeDetection L e cb w1 = Done None w2 /\
    registeredPins (client w2) !! L = Some true /\
    settled w2 !! L = Some (mkReg L e cb) /\
    (forall w3, step w2 Body w3 -> registry w3 !! L = Some (mkReg L e cb)).
Proof.
  intros Hr H. pose proof (reachable_I2 _ Hr) as H2.
  assert (step w (Invoke (call_RemoveEdgeDetectionRegistration L) None) w1) as Hs1
    by by constructor.
  pose proof (step_I2 _ _ _ H2 Hs1) as H2'.
  apply RemoveEdgeDetectionRegistration_Done in H
    as [(_ & ? & _)|[(_ & _ & ? & _)|[(_ & _ & _ & ? & _)|(Ho & Hp & _ & _ & k & Hk & ->)]]];
    try done.
  match goal with H2' : I2 ?w1 |- _ =>
    pose proof (RegisterEdgeDetection_accepted w1 L e cb H2'
                  ltac:(by apply accepted_poller_ok) Ho Hp
                  ltac:(simpl; apply lookup_delete_eq)) as H1 end.
  eexists. split; [exact H1|]. split_and!.
  - simpl. apply lookup_insert_eq.
  - rewrite settled_accepted, after_body_registry. apply lookup_insert_eq.
  - intros w3 Hs. apply step_Body_single with (m := newPin (mkReg L e cb)) in Hs; [|done].
    destruct Hs as [(p & Hb & ->)|[Hb _]]; [|done]. simpl in Hb. simplify_eq.
    unfold registry. simpl. apply lookup_insert_eq.
Qed.

(** ** What a tick starts *)

Lemma spawns_cons (kv : N * pinRegistration Callback) fs :
  spawns (kv :: fs) =
  match callback (snd kv) with
  | Some cb => go_callback cb (edge (snd kv)) :: spawns fs
  | None => spawns fs
  end.
Proof. unfold spawns. simpl. by destruct (callback (snd kv)). Qed.

Lemma spawns_length (fs : list (N * pinRegistration Callback)) :
  length (spawns fs) <= length fs.
Proof.
  induction fs as [|kv fs IH]; [done|]. rewrite spawns_cons.
  destruct (callback (snd kv)); simpl; lia.
Qed.

(** X9.  A tick changes nothing but the log.  It visits every pin of
    the registry once, whatever the order of the walk, and starts one
    callback for each registered pin that reports an edge and none for
    any other pin: never more callbacks than there are registrations,
    and none at all when no registered pin reports an edge. *)
Theorem tick_fires_detected_registrations w detected visit w' :
  step w (Tick detected visit) w' ->
  client w' = client w /\
  goroutines w' = goroutines w /\
  log w' = log w ++ spawns (fired detected visit) /\
  (forall k r,
     (k, r) ∈ fired detected visit <-> registry w !! k = Some r /\ detected k = true) /\
  NoDup (fired detected visit).*1 /\
  length (spawns (fired detected visit)) <= size (registry w) /\
  ((forall k, is_Some (registry w !! k) -> detected k = false) -> log w' = log w).
Proof.
  intros Hs. inversion Hs as [| | |w0 d0 v0 Hsel Hv]; subst.
  assert (forall k r,
            (k, r) ∈ fired detected visit <-> registry w !! k = Some r /\ detected k = true)
    as Hin.
  { intros k r. unfold fired. rewrite list_elem_of_filter, Hv, elem_of_map_to_list.
    simpl. tauto. }
  split_and!; try done.
  - apply (sublist_NoDup _ (visit.*1)).
    + rewrite Hv. apply NoDup_fst_map_to_list.
    + unfold fired. apply fmap_sublist, sublist_filter.
  - etrans; [apply spawns_length|]. unfold fired.
    etrans; [apply length_filter|]. by rewrite Hv, length_map_to_list.
  - intros Hnone. simpl.
    assert (fired detected visit = []) as ->; [|by rewrite app_nil_r].
    apply elem_of_nil_inv. intros [k r] [Hl Hd]%Hin.
    rewrite Hnone in Hd; [done|by eexists].
Qed.

Lemma emitted_go_callback w l cb e :
  go_callback cb e ∈ emitted w l ->
  exists detected visit, l = Tick detected visit.
Proof.
  destruct l as [[| | | |pin' e' cb'|pin'|] [err|]| |]; simpl;
    repeat case_match; simpl;
    rewrite ?elem_of_cons, ?elem_of_nil; try (by intuition discriminate).
  intros _. by do 2 eexists.
Qed.

(** X10.  The loop never starts a callback out of nowhere: every
    callback a run has started, with whatever edge it was given, was
    handed over by a [RegisterEdgeDetection] of that run with that very
    edge, for a pin that call has armed. *)
Theorem callbacks_were_registered w (cb : Callback) e :
  reachable w ->
  go_callback cb e ∈ log w ->
  exists L : Pin,
    chan_send (newPin (mkReg L e (Some cb))) ∈ log w /\ pin_Detect L e ∈ log w.
Proof.
  intros [ls He].
  set (Q := fun w : World Callback =>
    I2 w /\
    (forall k r, settled w !! k = Some r ->
       chan_send (newPin r) ∈ log w /\ pin_Detect (pin r) (edge r) ∈ log w) /\
    (forall (cb : Callback) e, go_callback cb e ∈ log w ->
       exists L : Pin,
         chan_send (newPin (mkReg L e (Some cb))) ∈ log w /\ pin_Detect L e ∈ log w)).
  assert (Q init) as H0.
  { split_and!; [apply init_I2| |by intros cb0 e0 ?%elem_of_nil].
    intros k r Hk. unfold settled in Hk. simpl in Hk. by rewrite lookup_empty in Hk. }
  assert (Q w) as (_ & _ & Hw); [|by apply Hw].
  clear cb e. revert H0. generalize dependent (@init Callback).
  intros w0 He. induction He as [|w0 l w1 ls w2 Hs _ IH]; [done|].
  intros (H2 & Hreg & Hcb). apply IH. clear IH.
  pose proof (step_log _ _ _ Hs) as Hlog.
  pose proof (step_settled _ _ _ H2 Hs) as Hst.
  split_and!; [by eapply step_I2| |].
  - assert (forall k r, settled w0 !! k = Some r ->
              chan_send (newPin r) ∈ log w0 ++ emitted w0 l /\
              pin_Detect (pin r) (edge r) ∈ log w0 ++ emitted w0 l) as Hold.
    { intros k r Hk. rewrite !elem_of_app. destruct (Hreg k r Hk). auto. }
    intros k r Hk. rewrite Hlog. rewrite Hst in Hk.
    destruct l as [[| | | |pin' e' cb'|pin'|] [err|]| |]; try by eapply Hold.
    + destruct (decide (pin' = k)) as [->|Hne].
      * rewrite lookup_insert_eq in Hk. simplify_eq. simpl.
        rewrite !elem_of_app, !elem_of_cons. auto.
      * rewrite lookup_insert_ne in Hk by done. by eapply Hold.
    + apply lookup_delete_Some in Hk as [_ Hk]. by eapply Hold.
  - intros cb e. rewrite Hlog, elem_of_app. intros [Hold|Hnew].
    + destruct (Hcb cb e Hold) as (L & ? & ?). exists L.
      rewrite !elem_of_app. auto.
    + destruct (emitted_go_callback _ _ _ _ Hnew) as (detected & visit & ->).
      simpl in Hnew. inversion Hs as [| | |w' d0 v0 Hsel Hv Hfn]; subst.
      unfold spawns in Hnew. apply list_elem_of_omap in Hnew
        as ([k r] & Hin & Heq). simpl in Heq.
      destruct (callback r) as [cb'|] eqn:Hr; simplify_eq.
      apply list_elem_of_filter in Hin as [_ Hin].
      rewrite Hv in Hin. apply elem_of_map_to_list in Hin.
      rewrite <- (settled_Selecting _ H2 Hsel) in Hin.
      destruct (Hreg k r Hin) as [Hsend Hdet]. exists (pin r).
      rewrite !elem_of_app. destruct r as [pr er cr]. simpl in *. subst cr. auto.
Qed.

(** ** The edge modes set on the pins *)

Lemma detect_mode_app es1 es2 :
  detect_mode (es1 ++ es2) =
  foldl (fun hw e => match e with
                     | pin_Detect p edge => <[p := edge]> hw
                     | _ => hw
                     end) (detect_mode es1) es2.
Proof. apply foldl_app. Qed.

Lemma detect_mode_spawns es (fs : list (N * pinRegistration Callback)) :
  detect_mode (es ++ spawns fs) = detect_mode es.
Proof.
  rewrite detect_mode_app. generalize (detect_mode es).
  induction fs as [|f fs IH]; intros hw; [done|]. rewrite spawns_cons.
  destruct (callback (snd f)); apply IH.
Qed.

Lemma step_detect_mode w l w' :
  step w l w' ->
  detect_mode (log w') =
  match l with
  | Invoke (call_RegisterEdgeDetection pin edge _) None =>
      <[pin := edge]> (detect_mode (log w))
  | Invoke (call_RemoveEdgeDetectionRegistration pin) None =>
      <[pin := NoEdge]> (detect_mode (log w))
  | _ => detect_mode (log w)
  end.
Proof.
  intros Hs. rewrite (step_log _ _ _ Hs).
  destruct l as [[| | | |pin' e' cb'|pin'|] [err|]| |];
    try apply detect_mode_spawns;
    rewrite detect_mode_app; simpl; by repeat case_match.
Qed.

(** X11.  At any moment of any run the last edge mode the client has
    set on a pin is the one the poller's registry stands for (the
    message in hand applied): the edge of the registration while the pin
    is registered, and [NoEdge], or no mode ever set, while it is
    not. *)
Theorem detect_mode_follows_registry w (L : Pin) :
  reachable w ->
  match settled w !! L with
  | Some reg => detect_mode (log w) !! L = Some (edge reg)
  | None => detect_mode (log w) !! L = None \/ detect_mode (log w) !! L = Some NoEdge
  end.
Proof.
  intros [ls He].
  set (Q := fun w : World Callback =>
    I2 w /\
    forall L : Pin,
      match settled w !! L with
      | Some reg => detect_mode (log w) !! L = Some (edge reg)
      | None => detect_mode (log w) !! L = None \/ detect_mode (log w) !! L = Some NoEdge
      end).
  assert (Q init) as H0.
  { split; [apply init_I2|]. intros L0. unfold settled, detect_mode. simpl.
    rewrite !lookup_empty. by left. }
  assert (Q w) as [_ Hw]; [|by apply Hw].
  clear L. revert H0. generalize dependent (@init Callback).
  intros w0 He. induction He as [|w0 l w1 ls w2 Hs _ IH]; [done|].
  intros [H2 Hq]. apply IH. clear IH. split; [by eapply step_I2|].
  intros L. rewrite (step_settled _ _ _ H2 Hs), (step_detect_mode _ _ _ Hs).
  specialize (Hq L).
  destruct l as [[| | | |pin' e' cb'|pin'|] [err|]| |]; try done.
  - destruct (decide (pin' = L)) as [->|Hne].
    + by rewrite !lookup_insert_eq.
    + by rewrite !lookup_insert_ne.
  - destruct (decide (pin' = L)) as [->|Hne].
    + rewrite lookup_delete_eq, lookup_insert_eq. by right.
    + by rewrite lookup_delete_ne, lookup_insert_ne.
Qed.

(** ** Opening, closing, starting and stopping *)

Lemma count_app f es1 es2 :
  count f (es1 ++ es2) = count f es1 + count f es2.
Proof. unfold count. by rewrite filter_app, length_app. Qed.

Lemma count_cons f e es :
  count f (e :: es) = (if f e then 1 else 0) + count f es.
Proof.
  unfold count. destruct (f e) eqn:Hf.
  - by rewrite filter_cons_True.
  - rewrite filter_cons_False; [done|]. by rewrite Hf.
Qed.

Lemma count_spawns f (fs : list (N * pinRegistration Callback)) :
  (forall cb e, f (go_callback cb e) = false) -> count f (spawns fs) = 0.
Proof.
  intros Hf. induction fs as [|x fs IH]; [done|]. rewrite spawns_cons.
  destruct (callback (snd x)); [|done]. by rewrite count_cons, Hf, IH.
Qed.

(** X12.  [Start] and [Poll] do their work once per session: at any
    moment of any run the device has been opened exactly as often as it
    was closed, plus once while [open] is set, and a loop has been
    started exactly as often as one was told to stop, plus once while
    [polling] is set. *)
Theorem lifecycle_effects_balanced w :
  reachable w ->
  opens (log w) = closes (log w) + (if open (client w) then 1 else 0) /\
  loops_started (log w) = loops_stopped (log w) + (if polling (client w) then 1 else 0).
Proof.
  intros [ls He].
  assert (opens (log (@init Callback))
          = closes (log (@init Callback)) + (if open (client (@init Callback)) then 1 else 0) /\
          loops_started (log (@init Callback))
          = loops_stopped (log (@init Callback))
            + (if polling (client (@init Callback)) then 1 else 0)) as H0 by done.
  revert H0. generalize dependent (@init Callback).
  intros w0 He. induction He as [|w0 l w1 ls w2 Hs _ IH]; [done|].
  intros [Ho Hp]. apply IH. clear IH.
  rewrite (step_log _ _ _ Hs), (step_open _ _ _ Hs), (step_polling _ _ _ Hs).
  unfold opens, closes, loops_started, loops_stopped in *. rewrite !count_app.
  destruct l as [[| | | |pin' e' cb'|pin'|] [err|]| |]; simpl emitted;
    rewrite ?count_spawns by done;
    destruct (open (client w0)), (polling (client w0)); simpl;
    rewrite ?count_cons; change (count ?f []) with 0; lia.
Qed.

(** X13.  Once [Stop] has returned, every registration call is
    refused until the next [Start]: registrations and removals with the
    not-open error, frequency updates with theirs, all in a world they
    leave as it is.  After [StopPolling] alone, on an open client,
    registrations and removals are refused with the not-polling
    error. *)
Theorem calls_refused_after_stop w w' (closeErr : error) (L : Pin) e cb d :
  (Stop closeErr w = Done tt w' ->
   RegisterEdgeDetection L e cb w' = Done (Some NotOpen) w' /\
   RemoveEdgeDetectionRegistration L w' = Done (Some NotOpen) w' /\
   UpdatePollFreq d w' = Done (Some PollFreqNotOpen) w') /\
  (StopPolling w = Done tt w' -> open (client w) = true ->
   RegisterEdgeDetection L e cb w' = Done (Some NotPolling) w' /\
   RemoveEdgeDetectionRegistration L w' = Done (Some NotPolling) w').
Proof.
  split.
  - intros H.
    assert (open (client w') = false) as Ho
      by by apply Stop_Done in H as [[? ->]|(_ & _ & w1 & _ & ->)].
    unfold RegisterEdgeDetection, RemoveEdgeDetectionRegistration, UpdatePollFreq,
      bind, self, ret. by rewrite Ho.
  - intros H Ho.
    assert (open (client w') = true /\ polling (client w') = false) as [Ho' Hp]
      by by apply StopPolling_Done in H as [[? ->]|(_ & k & _ & ->)].
    unfold RegisterEdgeDetection, RemoveEdgeDetectionRegistration, bind, self, ret.
    by rewrite Ho', Hp.
Qed.

(** X14.  The registry outlives the loop: after [StopPolling] and a
    new [Poll] the client's map is untouched, the new goroutine is in
    [select] on the registry the old one has left (its last message
    applied), and a tick can be taken at once (it goes through when the
    callbacks it has to start are functions). *)
Theorem repoll_keeps_registry w w1 w2 :
  I2 w -> polling (client w) = true ->
  StopPolling w = Done tt w1 ->
  Poll w1 = Done tt w2 ->
  polling (client w2) = true /\
  open (client w2) = open (client w) /\
  registeredPins (client w2) = registeredPins (client w) /\
  registry w2 = settled w /\
  settled w2 = settled w /\
  goroutines w2 = [Received stop; Selecting] /\
  forall detected,
    Forall (fun kv => is_Some (callback (snd kv)))
      (fired detected (map_to_list (registry w2))) ->
    step w2 (Tick detected (map_to_list (registry w2)))
      (add_log (spawns (fired detected (map_to_list (registry w2)))) w2).
Proof.
  intros H2 Hp H1 H3. unfold I2 in H2. rewrite Hp in H2.
  apply StopPolling_Done in H1 as [[? _]|(_ & k & Hk & ->)]; [congruence|].
  rewrite Hk in H2. simplify_eq.
  apply Poll_Done in H3 as [[? _]|(_ & ->)]; [done|].
  split_and!; try done.
  intros detected Hfn. apply step_tick; [|done..]. simpl.
  apply elem_of_cons. right. apply list_elem_of_here.
Qed.

(** X15.  [Stop] stops the loop before it closes the device: when
    [rpio.Close] fails on an open, polling client, [Stop] panics with
    the error in its message, and at that point the loop has been told
    to stop and [polling] is down while [open] is still set. *)
Theorem failed_close_leaves_open w (err : string) :
  I2 w -> poller_ok w ->
  open (client w) = true -> polling (client w) = true ->
  exists w',
    Stop (Some err) w = Panic ("unable to close GPIO: " ++ err)%string w' /\
    open (client w') = true /\ polling (client w') = false /\
    registeredPins (client w') = registeredPins (client w) /\
    log w' = log w ++ [chan_send stop; rpio_Close].
Proof.
  intros H2 Hok Ho Hp. unfold I2 in H2. rewrite Hp in H2.
  unfold Stop, bind at 1, self. rewrite Ho. simpl.
  unfold bind at 1. rewrite Hp.
  unfold StopPolling, bind at 1, self. rewrite Hp. simpl.
  unfold bind, assign, emit, panic. rewrite (send_accepted _ _ 0) by done.
  eexists. split; [done|]. simpl. split_and!; try done. by rewrite <- app_assoc.
Qed.

(** X17.  [Poll] does not look at [open]: on a client that is not
    open it starts the loop all the same, and [Stop], which returns at
    once on a client that is not open, then leaves that loop running
    with [polling] set, while registrations are refused because the
    GPIO is not open; only [StopPolling] ends the loop. *)
Theorem poll_without_start w (closeErr : error) (L : Pin) e cb :
  open (client w) = false -> polling (client w) = false ->
  exists w1,
    Poll w = Done tt w1 /\
    polling (client w1) = true /\
    goroutines w1 = goroutines w ++ [Selecting] /\
    Stop closeErr w1 = Done tt w1 /\
    RegisterEdgeDetection L e cb w1 = Done (Some NotOpen) w1 /\
    (I2 w -> poller_ok w ->
     exists w2, StopPolling w1 = Done tt w2 /\ polling (client w2) = false /\
                length (live (goroutines w2)) = 0).
Proof.
  intros Ho Hp. eexists. split.
  { unfold Poll, bind, self, spawn_poll, assign. by rewrite Hp. }
  split_and!; try done.
  - unfold Stop, bind, self, ret. simpl. by rewrite Ho.
  - unfold RegisterEdgeDetection, bind, self, ret. simpl. by rewrite Ho.
  - intros H2 Hok. unfold I2 in H2. rewrite Hp in H2.
    unfold StopPolling, bind, self, assign. simpl.
    rewrite (send_accepted _ _ 0).
    + eexists. by split_and!.
    + apply run_bodies_doomed. simpl. apply Forall_app. split; [|by repeat constructor].
      exact (proj1 (run_bodies_doomed _ _) Hok).
    + simpl. rewrite live_app, length_app, H2. done.
Qed.

(** ** A callback that is nil *)

(** X18.  [RegisterEdgeDetection] does not turn a [nil] callback away:
    on the open, polling client it returns [nil] for a free pin, and the
    poller puts the registration into its registry.  From then on no
    tick on which that pin reports an edge goes through: [go] on the
    [nil] function ends the process. *)
Theorem nil_callback_ends_ticks w (L : Pin) e :
  reachable w -> poller_ok w ->
  open (client w) = true -> polling (client w) = true ->
  registeredPins (client w) !! L = None ->
  exists w1,
    RegisterEdgeDetection L e None w = Done None w1 /\
    forall w2,
      step w1 Body w2 ->
      registry w2 !! L = Some (mkReg L e None) /\
      forall detected visit w3,
        detected L = true -> ~ step w2 (Tick detected visit) w3.
Proof.
  intros Hr Hok Ho Hp Hl. pose proof (reachable_I2 _ Hr) as H2.
  eexists. split; [by apply RegisterEdgeDetection_accepted|].
  intros w2 Hs.
  apply step_Body_single with (m := newPin (mkReg L e None)) in Hs; [|done].
  destruct Hs as [(p & Hb & ->)|[Hb _]]; [|done]. simpl in Hb. simplify_eq.
  assert (forall w0 : World Callback, registry w0 !! L = Some (mkReg L e None) ->
            forall detected visit w3,
              detected L = true -> ~ step w0 (Tick detected visit) w3) as Hno.
  { intros w0 Hreg detected visit w3 Hd Ht.
    inversion Ht as [| | |w' d0 v0 Hsel Hv Hfn]; subst.
    rewrite Forall_forall in Hfn.
    destruct (Hfn (L, mkReg L e None)) as [cb Hcb]; [|done].
    unfold fired. apply list_elem_of_filter. split; [done|].
    rewrite Hv. by apply elem_of_map_to_list. }
  split; [|apply Hno]; unfold registry; simpl; apply lookup_insert_eq.
Qed.

(** ** A whole session *)

(** X16.  A session from [init], for any pin, any edge and any
    callback that is a function (not [nil]):
    [Start], [Poll], a registration, the poller taking it in, a tick on
    which the pin reports an edge, the removal, the poller taking it in,
    [StopPolling] and [Stop] all go through without an error.  What the
    session has done is, in this order: open the device, start the loop,
    arm the pin, hand over the registration, start the callback once
    with the registered edge, disarm the pin, hand over the removal,
    stop the loop and close the device.  Both maps are empty again, and
    a further registration is refused because the GPIO is not open. *)
Theorem whole_session (L : Pin) e (cb : Callback) detected :
  detected L = true ->
  exists w,
    exec init
      [Invoke (call_Start None) None;
       Invoke call_Poll None;
       Invoke (call_RegisterEdgeDetection L e (Some cb)) None;
       Body;
       Tick detected [(L, mkReg L e (Some cb))];
       Invoke (call_RemoveEdgeDetectionRegistration L) None;
       Body;
       Invoke call_StopPolling None;
       Invoke (call_Stop None) None] w /\
    log w = [rpio_Open; go_poll;
             pin_Detect L e; chan_send (newPin (mkReg L e (Some cb)));
             go_callback cb e;
             pin_Detect L NoEdge; chan_send (removePin L);
             chan_send stop; rpio_Close] /\
    registeredPins (client w) = ∅ /\
    registry w = ∅ /\
    open (client w) = false /\ polling (client w) = false /\
    RegisterEdgeDetection L e (Some cb) w = Done (Some NotOpen) w.
Proof.
  intros Hd.
  set (reg := mkReg L e (Some cb)).
  set (p0 := mkPoller DefaultPollFreq (∅ : gmap N (pinRegistration Callback))).
  set (p1 := mkPoller DefaultPollFreq (<[L := reg]> (∅ : gmap N (pinRegistration Callback)))).
  set (p2 := mkPoller DefaultPollFreq
               (delete L (<[L := reg]> (∅ : gmap N (pinRegistration Callback))))).
  set (r1 := <[L := true]> (∅ : gmap N bool)).
  set (r2 := delete L r1).
  set (e2 := [rpio_Open; go_poll] : list (Effect Callback)).
  set (e4 := e2 ++ [pin_Detect L e; chan_send (newPin reg)]).
  set (e5 := e4 ++ [go_callback cb e]).
  set (e7 := e5 ++ [pin_Detect L NoEdge; chan_send (removePin L)]).
  set (wa := mkWorld (mkRPIO true false p0 ∅) [] [rpio_Open]).
  set (wb := mkWorld (mkRPIO true true p0 ∅) [Selecting] e2).
  set (wc := mkWorld (mkRPIO true true p0 r1) [Received (newPin reg)] e4).
  set (wd := mkWorld (mkRPIO true true p1 r1) [Selecting] e4).
  set (we := mkWorld (mkRPIO true true p1 r1) [Selecting] e5).
  set (wf := mkWorld (mkRPIO true true p1 r2) [Received (removePin L)] e7).
  set (wg := mkWorld (mkRPIO true true p2 r2) [Selecting] e7).
  set (wh := mkWorld (mkRPIO true false p2 r2) [Received stop] (e7 ++ [chan_send stop])).
  set (wi := mkWorld (mkRPIO false false p2 r2) [Received stop]
               ((e7 ++ [chan_send stop]) ++ [rpio_Close])).
  assert (forall w0 : World Callback, goroutines w0 = [Selecting] -> poller_ok w0) as Hok.
  { intros w0 Hg. apply run_bodies_doomed. rewrite Hg. by repeat constructor. }
  exists wi. split_and!; try done.
  - apply (exec_cons _ _ wa); [by apply step_invoke|].
    apply (exec_cons _ _ wb); [by apply step_invoke|].
    apply (exec_cons _ _ wc).
    { apply step_invoke. simpl.
      rewrite (RegisterEdgeDetection_accepted wb L e (Some cb)); try done. by apply Hok. }
    apply (exec_cons _ _ wd).
    { exact (step_continue wc [] (newPin reg) [] p1 eq_refl eq_refl). }
    apply (exec_cons _ _ we).
    { assert (fired detected [(L, reg)] = [(L, reg)]) as Hf
        by (unfold fired; by rewrite filter_cons_True).
      pose proof (step_tick wd detected [(L, reg)]) as Ht.
      rewrite Hf in Ht. apply Ht.
      - apply list_elem_of_here.
      - unfold registry. simpl. unfold p1. simpl.
        by rewrite insert_empty, map_to_list_singleton.
      - repeat constructor. by eexists. }
    apply (exec_cons _ _ wf).
    { apply step_invoke. simpl.
      rewrite (RemoveEdgeDetectionRegistration_accepted we L); try done;
        [by apply Hok|].
      simpl. unfold r1. rewrite lookup_insert_eq. by eexists. }
    apply (exec_cons _ _ wg).
    { exact (step_continue wf [] (removePin L) [] p2 eq_refl eq_refl). }
    apply (exec_cons _ _ wh); [by apply step_invoke|].
    apply (exec_cons _ _ wi); [by apply step_invoke|].
    apply exec_nil.
  - simpl. unfold r2, r1. by apply delete_insert_id.
  - unfold registry. simpl. by apply delete_insert_id.
Qed.

End Beyond.

(** * The further properties in the session *)

Section BeyondRuns.

Import Session.

Lemma reachable_ticked : reachable (ticked edge_on_4 w_both).
Proof.
  eapply reachable_step; [apply reachable_both|].
  apply step_ticked; vm_compute; [apply list_elem_of_here|repeat econstructor].
Qed.

Lemma one_loop_at_a_time_witness :
  (exists l1 g l2,
     goroutines w_both = l1 ++ g :: l2 /\ stopping g = false /\
     Forall (fun g => stopping g = true) (l1 ++ l2)) /\
  Forall (fun g => stopping g = true) (goroutines w_open).
Proof.
  split.
  - apply (one_loop_at_a_time w_both reachable_both). reflexivity.
  - apply (one_loop_at_a_time w_open reachable_open). reflexivity.
Defined.

Lemma guarded_calls_never_park_witness :
  RegisterEdgeDetection 7 RiseEdge (Some "cb1") w_both <> Block w_both /\
  Stop None w_both <> Block w_both.
Proof.
  destruct (guarded_calls_never_park w_both 7 RiseEdge (Some "cb1") None w_both reachable_both)
    as (H1 & _ & _ & H4).
  split; [exact H1|exact H4].
Defined.

Lemma UpdatePollFreq_parks_iff_witness :
  exists w', UpdatePollFreq 5 w_open = Block w'.
Proof.
  apply (UpdatePollFreq_parks_iff w_open 5 reachable_open). split; reflexivity.
Defined.

Lemma positive_frequencies_keep_poller_witness :
  poller_ok w_both /\
  exists w', RegisterEdgeDetection 7 AnyEdge (Some "cb3") w_both = Done None w'.
Proof.
  destruct (positive_frequencies_keep_poller w_both _ run_to_both) as (H1 & H2 & _).
  - intros d err Hin.
    repeat (apply elem_of_cons in Hin as [Hin|Hin]; [discriminate|]).
    by apply elem_of_nil in Hin.
  - split; [exact H1|]. apply H2; [reflexivity|reflexivity|]. vm_compute. reflexivity.
Defined.

Lemma frequency_update_applied_witness :
  goroutines (world_of (UpdatePollFreq 5 w_both)) = [Received (newPollFreq 5)] /\
  ticker (poller (client (bodies_run (world_of (UpdatePollFreq 5 w_both))))) = 5%Z.
Proof.
  destruct (frequency_update_applied w_both 5 (world_of (UpdatePollFreq 5 w_both))
              reachable_both) as (_ & H1 & H2).
  - vm_compute. reflexivity.
  - split; [exact H1|].
    apply (H2 (bodies_run (world_of (UpdatePollFreq 5 w_both)))).
    by eapply step_bodies_run.
Defined.

Lemma ticker_stays_positive_witness :
  (0 < ticker (poller (client w_both)))%Z.
Proof. apply (ticker_stays_positive w_both reachable_both). Defined.

Lemma register_then_remove_witness :
  exists w1 w2,
    RegisterEdgeDetection 7 AnyEdge (Some "cb3") w_both = Done None w1 /\
    RemoveEdgeDetectionRegistration 7 w1 = Done None w2 /\
    registeredPins (client w2) = registeredPins (client w_both) /\
    settled w2 = settled w_both.
Proof.
  destruct (register_then_remove w_both 7 AnyEdge (Some "cb3") reachable_both)
    as (w1 & w2 & H1 & H2 & H3 & H4 & _).
  - eexists. reflexivity.
  - reflexivity.
  - reflexivity.
  - vm_compute. reflexivity.
  - exists w1, w2. by split_and!.
Defined.

Lemma remove_then_register_witness :
  exists w2,
    RegisterEdgeDetection 4 AnyEdge (Some "cb3") w_unsent4 = Done None w2 /\
    settled w2 !! 4%N = Some (mkReg 4 AnyEdge (Some "cb3")).
Proof.
  destruct (remove_then_register w_both 4 w_unsent4 AnyEdge (Some "cb3") reachable_both)
    as (w2 & H1 & _ & H2 & _).
  - reflexivity.
  - exists w2. by split.
Defined.

Lemma tick_fires_detected_registrations_witness :
  client (ticked edge_on_4 w_both) = client w_both /\
  length (spawns (fired edge_on_4 (map_to_list (registry w_both)))) <= size (registry w_both).
Proof.
  destruct (tick_fires_detected_registrations w_both edge_on_4
              (map_to_list (registry w_both)) (ticked edge_on_4 w_both))
    as (H1 & _ & _ & _ & _ & H2 & _).
  - apply step_ticked; vm_compute; [apply list_elem_of_here|repeat econstructor].
  - split; [exact H1|exact H2].
Defined.

Lemma callbacks_were_registered_witness :
  exists L : N,
    chan_send (newPin (mkReg L RiseEdge (Some "cb1"))) ∈ log (ticked edge_on_4 w_both) /\
    pin_Detect L RiseEdge ∈ log (ticked edge_on_4 w_both).
Proof.
  apply (callbacks_were_registered (ticked edge_on_4 w_both) "cb1" RiseEdge
           reachable_ticked).
  vm_compute. repeat first [apply list_elem_of_here | apply list_elem_of_further].
Defined.

Lemma detect_mode_follows_registry_witness :
  match settled w_both !! 4%N with
  | Some reg => detect_mode (log w_both) !! 4%N = Some (edge reg)
  | None => detect_mode (log w_both) !! 4%N = None \/
            detect_mode (log w_both) !! 4%N = Some NoEdge
  end.
Proof. apply (detect_mode_follows_registry w_both 4 reachable_both). Defined.

Lemma lifecycle_effects_balanced_witness :
  opens (log w_both) = closes (log w_both) + 1 /\
  loops_started (log w_both) = loops_stopped (log w_both) + 1.
Proof. apply (lifecycle_effects_balanced w_both reachable_both). Defined.

Lemma calls_refused_after_stop_witness :
  RegisterEdgeDetection 7 AnyEdge (Some "cb3") (world_of (Stop None w_both))
  = Done (Some NotOpen) (world_of (Stop None w_both)) /\
  RemoveEdgeDetectionRegistration 4 (world_of (StopPolling w_both))
  = Done (Some NotPolling) (world_of (StopPolling w_both)).
Proof.
  split.
  - apply (calls_refused_after_stop w_both (world_of (Stop None w_both))
             None 7 AnyEdge (Some "cb3") 5).
    vm_compute. reflexivity.
  - apply (calls_refused_after_stop w_both (world_of (StopPolling w_both))
             None 4 AnyEdge (Some "cb3") 5); [vm_compute|]; reflexivity.
Defined.

Lemma repoll_keeps_registry_witness :
  registry (world_of (Poll (world_of (StopPolling w_both)))) = settled w_both /\
  goroutines (world_of (Poll (world_of (StopPolling w_both)))) = [Received stop; Selecting].
Proof.
  destruct (repoll_keeps_registry w_both (world_of (StopPolling w_both))
              (world_of (Poll (world_of (StopPolling w_both)))))
    as (_ & _ & _ & H1 & _ & H2 & _).
  - reflexivity.
  - reflexivity.
  - vm_compute. reflexivity.
  - vm_compute. reflexivity.
  - split; [exact H1|exact H2].
Defined.

Lemma failed_close_leaves_open_witness :
  exists w',
    Stop (Some "busy") w_both = Panic "unable to close GPIO: busy" w' /\
    open (client w') = true /\ polling (client w') = false.
Proof.
  destruct (failed_close_leaves_open w_both "busy") as (w' & H1 & H2 & H3 & _).
  - reflexivity.
  - eexists. reflexivity.
  - reflexivity.
  - reflexivity.
  - exists w'. by split_and!.
Defined.

Lemma poll_without_start_witness :
  exists w1,
    Poll w_init = Done tt w1 /\
    polling (client w1) = true /\
    Stop None w1 = Done tt w1.
Proof.
  destruct (poll_without_start w_init None 4 RiseEdge (Some "cb1"))
    as (w1 & H1 & H2 & _ & H3 & _).
  - reflexivity.
  - reflexivity.
  - exists w1. by split_and!.
Defined.

Lemma nil_callback_ends_ticks_witness :
  exists w1,
    RegisterEdgeDetection 7 AnyEdge None w_both = Done None w1 /\
    ~ step (bodies_run w1) (Tick all_edges (map_to_list (registry (bodies_run w1))))
        (ticked all_edges (bodies_run w1)).
Proof.
  destruct (nil_callback_ends_ticks w_both 7 AnyEdge reachable_both) as (w1 & H1 & H2).
  - eexists. reflexivity.
  - reflexivity.
  - reflexivity.
  - vm_compute. reflexivity.
  - exists w1. split; [exact H1|].
    assert (w1 = world_of (RegisterEdgeDetection 7 AnyEdge None w_both)) as ->
      by (rewrite H1; reflexivity).
    apply (H2 (bodies_run (world_of (RegisterEdgeDetection 7 AnyEdge None w_both))));
      [|reflexivity].
    by eapply step_bodies_run.
Defined.

Lemma whole_session_witness :
  exists w : World string,
    log w = [rpio_Open; go_poll;
             pin_Detect 4 RiseEdge; chan_send (newPin reg4);
             go_callback "cb1" RiseEdge;
             pin_Detect 4 NoEdge; chan_send (removePin 4);
             chan_send stop; rpio_Close] /\
    RegisterEdgeDetection 4 RiseEdge (Some "cb1") w = Done (Some NotOpen) w.
Proof.
  destruct (whole_session (Callback := string) 4 RiseEdge "cb1" all_edges eq_refl)
    as (w & _ & H1 & _ & _ & _ & _ & H2).
  exists w. by split.
Defined.

End BeyondRuns.
